(** * Events service: a shallow embedding of [new.js] and [try.js]

    The service is an Express application whose four routes validate the
    request with a Joi schema and then make one call to a Mongoose model.
    The development follows that layering:

    - JSON values and objects, as Express hands them to the handlers;
    - the Joi schemas of the source and Joi's validation of an object,
      with the [abortEarly] preference the middleware passes;
    - the route handlers, as programs that issue repository calls and
      continue on the resolved or rejected result (the shape the unit tests
      rely on when they stub the model);
    - the Mongoose model: casting, document validation, the version key and
      the collection, as an interpreter of the repository calls.

    Conversions that belong to the JavaScript engine or to the innards of
    the two libraries (parsing a date, reading a number out of a string)
    are parameters of the development. *)

From Stdlib Require Import List String Ascii ZArith NArith Bool Lia.
From Stdlib Require Import DecimalString.
Import ListNotations.
Local Open Scope string_scope.
Local Open Scope Z_scope.
Local Set Warnings "-register-all".

(** ** JSON values *)

(** A parsed JSON value ([express.json()]), or a parsed query-string value.
    Numbers are restricted to integers: the only number the service reads is
    the version key. *)
Inductive value : Type :=
| VNull
| VBool (b : bool)
| VNum (n : Z)
| VStr (s : string)
| VArr (items : list value)
| VObj (fields : list (string * value)).

(** A JavaScript object used as a record: its own keys in insertion order.
    [get] is property access; [None] is [undefined]. *)
Definition obj : Type := list (string * value).

Fixpoint get (k : string) (o : obj) : option value :=
  match o with
  | [] => None
  | (k', v) :: rest => if String.eqb k k' then Some v else get k rest
  end.

Definition has_key (k : string) (o : obj) : bool :=
  match get k o with Some _ => true | None => false end.

Definition object_keys (o : obj) : list string := map fst o.

Definition mem_string (s : string) (l : list string) : bool :=
  existsb (String.eqb s) l.

(** JavaScript truthiness, as used by [if (location)] in the list handler. *)
Definition truthy (v : value) : bool :=
  match v with
  | VNull => false
  | VBool b => b
  | VNum n => negb (n =? 0)
  | VStr s => negb (String.eqb s "")
  | VArr _ | VObj _ => true
  end.

Definition truthy_opt (v : option value) : bool :=
  match v with Some x => truthy x | None => false end.

(** ** HTTP requests and responses *)

Record request : Type := mkRequest {
  params_id : string;   (* req.params.id *)
  body : obj;           (* req.body *)
  query : obj           (* req.query *)
}.

(** A stored event. [__v] is Mongoose's version key. *)
Record doc : Type := mkDoc {
  _id : N;
  title : string;
  description : option string;
  location : string;
  date : Z;
  status : string;
  __v : Z
}.

(** What a query hands back: the document, and whether the version key is
    part of it ([select: false] on [__v] in [new.js] leaves it out of
    every query result; the document returned by [save] carries it). *)
Record found : Type := mkFound {
  f_doc : doc;
  f_version : option Z
}.

Inductive payload : Type :=
| Message (m : string)
| ValidationError (message : string) (details : list string)
| EventBody (e : found)
| EventList (l : list found).

Inductive response : Type :=
| Response (status_code : Z) (sent : payload)
| NoResponse.   (* a rejection nobody caught: Express sends nothing *)

Definition status_of (r : response) : option Z :=
  match r with Response c _ => Some c | NoResponse => None end.

(** ** Joi *)

Inductive joi_type : Type := JString | JNumber | JDate.

Inductive code : Type :=
| any_required | any_only
| string_base | string_empty | string_min | string_max
| number_base | number_unsafe
| date_base
| object_unknown | object_missing.

Definition code_eq_dec (a b : code) : {a = b} + {a <> b}.
Proof. decide equality. Defined.

(** One entry of [error.details]. *)
Record detail : Type := mkDetail {
  d_code : code;
  d_label : string;
  d_message : string
}.

(** A key of a [Joi.object({...})]: the type, [.required()], [.valid(...)],
    [.min(n)], [.max(n)] and [.messages({...})]. *)
Record key_schema : Type := mkKey {
  k_name : string;
  k_type : joi_type;
  k_required : bool;
  k_valid : option (list string);
  k_min : option nat;
  k_max : option nat;
  k_messages : list (code * string)
}.

(** An object schema: its keys in declaration order and the peers of its
    [.or(...)] dependencies. *)
Record object_schema : Type := mkSchema {
  keys : list key_schema;
  or_peers : list (list string)
}.

Definition dquote : string := String (ascii_of_nat 34) EmptyString.
Definition quoted (s : string) : string := dquote ++ s ++ dquote.

Definition nat_to_string (n : nat) : string :=
  NilZero.string_of_uint (Nat.to_uint n).

Fixpoint join (sep : string) (l : list string) : string :=
  match l with
  | [] => ""
  | [x] => x
  | x :: rest => x ++ sep ++ join sep rest
  end.

Definition bracketed (l : list string) : string := "[" ++ join ", " l ++ "]".

(** Joi's message templates for the codes the schemas can raise. *)
Definition default_message (c : code) (label : string) (limit : nat)
    (names : list string) : string :=
  match c with
  | any_required => quoted label ++ " is required"
  | any_only =>
      quoted label ++ " must be "
        ++ (if (List.length names =? 1)%nat then "" else "one of ")
        ++ bracketed names
  | string_base => quoted label ++ " must be a string"
  | string_empty => quoted label ++ " is not allowed to be empty"
  | string_min =>
      quoted label ++ " length must be at least " ++ nat_to_string limit
        ++ " characters long"
  | string_max =>
      quoted label ++ " length must be less than or equal to "
        ++ nat_to_string limit ++ " characters long"
  | number_base => quoted label ++ " must be a number"
  | number_unsafe => quoted label ++ " must be a safe number"
  | date_base => quoted label ++ " must be a valid date"
  | object_unknown => quoted label ++ " is not allowed"
  | object_missing =>
      quoted label ++ " must contain at least one of " ++ bracketed names
  end.

Fixpoint custom_message (c : code) (ms : list (code * string)) : option string :=
  match ms with
  | [] => None
  | (c', m) :: rest => if code_eq_dec c c' then Some m else custom_message c rest
  end.

Definition report (k : key_schema) (c : code) (limit : nat) : detail :=
  mkDetail c (k_name k)
    (match custom_message c (k_messages k) with
     | Some m => m
     | None =>
         default_message c (k_name k) limit
           (match k_valid k with Some vs => vs | None => [] end)
     end).

(** Strings are held as the bytes of their UTF-8 form.  The [length] of a
    JavaScript string counts UTF-16 code units: one for a character of the
    basic plane (a lead byte below 240), two for a character beyond it, and
    nothing for a continuation byte. *)
Definition utf16_units (c : ascii) : nat :=
  let n := N_of_ascii c in
  if (n <? 128)%N then 1%nat
  else if (n <? 192)%N then 0%nat
  else if (n <? 240)%N then 1%nat
  else 2%nat.

Fixpoint js_length (s : string) : nat :=
  match s with
  | EmptyString => 0%nat
  | String c rest => (utf16_units c + js_length rest)%nat
  end.

Definition MAX_SAFE_INTEGER : Z := 9007199254740991.

Definition safe (n : Z) : bool :=
  (- MAX_SAFE_INTEGER <=? n) && (n <=? MAX_SAFE_INTEGER).

(** ** The JavaScript environment

    What the model takes from the engine and from the innards of the two
    libraries.
    [Joi_date v]: the time value (milliseconds) [Joi.date()] converts a
    number or a string to, [None] when it reports [date.base].
    [Joi_number_of_string s]: the number [Joi.number()] converts a string
    to, [None] when the string is no decimal literal.
    [Date_of v]: [new Date(v).getTime()], [None] for an Invalid Date.
    [castDate], [castNumber]: Mongoose's casts to the schema types [Date]
    and [Number], [None] when they throw a CastError. *)
Class javascript : Type := {
  Joi_date : value -> option Z;
  Joi_number_of_string : string -> option Z;
  Date_of : value -> option Z;
  castDate : value -> option Z;
  castNumber : value -> option Z
}.

(** ** A sample environment

    Concrete conversions to run the model on: dates are the numbers within
    the range of a JavaScript Date and two calendar dates, numeric strings
    are the unsigned decimal literals. *)

Definition digit (c : ascii) : option Z :=
  let n := Z.of_N (N_of_ascii c) in
  if (48 <=? n) && (n <=? 57) then Some (n - 48) else None.

Fixpoint digits (s : string) (acc : Z) : option Z :=
  match s with
  | EmptyString => Some acc
  | String c rest =>
      match digit c with
      | Some d => digits rest (10 * acc + d)
      | None => None
      end
  end.

Definition sample_number_of_string (s : string) : option Z :=
  match s with
  | EmptyString => None
  | _ => digits s 0
  end.

Definition sample_date (v : value) : option Z :=
  match v with
  | VNum n =>
      if (-8640000000000000 <=? n) && (n <=? 8640000000000000) then Some n else None
  | VStr s =>
      if String.eqb s "2024-12-12" then Some 1733961600000
      else if String.eqb s "2025-01-01" then Some 1735689600000
      else None
  | _ => None
  end.

Definition sample_castNumber (v : value) : option Z :=
  match v with
  | VNum n => Some n
  | VStr s => sample_number_of_string s
  | VBool true => Some 1
  | VBool false => Some 0
  | _ => None
  end.

Definition sample_js : javascript := {|
  Joi_date := sample_date;
  Joi_number_of_string := sample_number_of_string;
  Date_of := sample_date;
  castDate := sample_date;
  castNumber := sample_castNumber
|}.

(** The sample environment, except that [Joi.date()] reads the string
    ["13"] as the timestamp 13, as it does every decimal literal, while
    Mongoose hands that string to the Date constructor, which refuses it. *)
Definition literal_js : javascript := {|
  Joi_date := fun v =>
    match v with
    | VStr s => if String.eqb s "13" then Some 13 else sample_date v
    | _ => sample_date v
    end;
  Joi_number_of_string := sample_number_of_string;
  Date_of := sample_date;
  castDate := sample_date;
  castNumber := sample_castNumber
|}.

Section Service.

Context {js : javascript}.

(** *** Validating one key

    The order is Joi's: presence, then the allowed values of [.valid()],
    then the base type, then the rules in the order they were chained.  A
    value [.valid()] lists is accepted at once; a failure of the base type
    ends the key's validation whatever [abortEarly] says; under
    [abortEarly] the first error of any kind ends it. *)

Definition first_error (abortEarly : bool) (errors : list detail) : list detail :=
  if abortEarly then firstn 1 errors else errors.

Definition string_rules (k : key_schema) (s : string) : list detail :=
  (match k_min k with
   | Some n => if (js_length s <? n)%nat then [report k string_min n] else []
   | None => []
   end)
  ++
  (match k_max k with
   | Some n => if (n <? js_length s)%nat then [report k string_max n] else []
   | None => []
   end).

Definition base_and_rules (k : key_schema) (v : value) : list detail :=
  match k_type k with
  | JString =>
      match v with
      | VStr s =>
          if String.eqb s "" then [report k string_empty 0]
          else string_rules k s
      | _ => [report k string_base 0]
      end
  | JNumber =>
      match v with
      | VNum n => if safe n then [] else [report k number_unsafe 0]
      | VStr s =>
          match Joi_number_of_string s with
          | Some n => if safe n then [] else [report k number_unsafe 0]
          | None => [report k number_base 0]
          end
      | _ => [report k number_base 0]
      end
  | JDate =>
      match v with
      | VNum _ | VStr _ =>
          match Joi_date v with
          | Some _ => []
          | None => [report k date_base 0]
          end
      | _ => [report k date_base 0]
      end
  end.

Definition is_allowed (vs : list string) (v : value) : bool :=
  match v with VStr s => mem_string s vs | _ => false end.

Definition validate_key (abortEarly : bool) (k : key_schema)
    (item : option value) : list detail :=
  match item with
  | None => if k_required k then [report k any_required 0] else []
  | Some v =>
      match k_valid k with
      | Some vs =>
          if is_allowed vs v then []
          else first_error abortEarly (report k any_only 0 :: base_and_rules k v)
      | None => first_error abortEarly (base_and_rules k v)
      end
  end.

(** *** Validating an object

    [Joi.object().validate]: the declared keys in declaration order, then
    the keys of the value no declaration covers, then the dependencies.
    Each stage returns what it has as soon as an error turns up under
    [abortEarly], and pushes the error and goes on otherwise. *)

Fixpoint validate_keys (abortEarly : bool) (ks : list key_schema) (o : obj)
    (errors : list detail) : bool * list detail :=
  match ks with
  | [] => (false, errors)
  | k :: rest =>
      match validate_key abortEarly k (get (k_name k) o) with
      | [] => validate_keys abortEarly rest o errors
      | result =>
          if abortEarly then (true, result)
          else validate_keys abortEarly rest o (errors ++ result)
      end
  end.

Definition declared (S : object_schema) (name : string) : bool :=
  mem_string name (map k_name (keys S)).

Definition unknown_report (name : string) : detail :=
  mkDetail object_unknown name (default_message object_unknown name 0 []).

Fixpoint unknown (abortEarly : bool) (unprocessed : list string)
    (errors : list detail) : bool * list detail :=
  match unprocessed with
  | [] => (false, errors)
  | name :: rest =>
      if abortEarly then (true, [unknown_report name])
      else unknown abortEarly rest (errors ++ [unknown_report name])
  end.

Definition missing_report (peers : list string) : detail :=
  mkDetail object_missing "value" (default_message object_missing "value" 0 peers).

Fixpoint dependencies (abortEarly : bool) (deps : list (list string)) (o : obj)
    (errors : list detail) : list detail :=
  match deps with
  | [] => errors
  | peers :: rest =>
      if existsb (fun p => has_key p o) peers
      then dependencies abortEarly rest o errors
      else if abortEarly then [missing_report peers]
      else dependencies abortEarly rest o (errors ++ [missing_report peers])
  end.

(** [schema.validate(value, { abortEarly })]: the list of [error.details],
    empty when there is no [error]. *)
Definition validate (S : object_schema) (o : obj) (abortEarly : bool) : list detail :=
  match validate_keys abortEarly (keys S) o [] with
  | (true, errors) => errors
  | (false, errors) =>
      let unprocessed :=
        filter (fun name => negb (declared S name)) (object_keys o) in
      match unknown abortEarly unprocessed errors with
      | (true, errors') => errors'
      | (false, errors') => dependencies abortEarly (or_peers S) o errors'
      end
  end.

(** [a.concat(b)] for object schemas whose keys are disjoint. *)
Definition concat (a b : object_schema) : object_schema :=
  mkSchema (keys a ++ keys b) (or_peers a ++ or_peers b).

(** *** The schemas of the source *)

Definition statuses : list string := ["active"; "cancelled"; "done"].

Definition eventValidationSchema : object_schema :=
  mkSchema
    [ mkKey "title" JString true None None None
        [(string_empty, "Title is required")];
      mkKey "description" JString false None None (Some 500%nat)
        [(string_max, "Description cannot exceed 500 characters")];
      mkKey "location" JString true None None None
        [(string_empty, "Location is required")];
      mkKey "date" JDate true None None None
        [(date_base, "Date is invalid or missing")];
      mkKey "status" JString false (Some statuses) None None [] ]
    [].

Definition updateEventValidationSchema : object_schema :=
  concat eventValidationSchema
    (mkSchema
       [ mkKey "__v" JNumber true None None None
           [(number_base, "Version is required")] ]
       []).

Definition queryValidationSchema : object_schema :=
  mkSchema
    [ mkKey "location" JString false None (Some 3%nat) (Some 50%nat) [];
      mkKey "date" JDate false None None None [];
      mkKey "status" JString false (Some statuses) None None [] ]
    [ ["location"; "date"; "status"] ].

(** *** The validation middleware

    A middleware either answers the request or calls [next()]. *)

Definition validateRequest (schema : object_schema) (req : request) : option response :=
  match validate schema (body req) false with
  | [] => None
  | error =>
      Some (Response 400 (ValidationError "Validation error" (map d_message error)))
  end.

Definition validateQuery (schema : object_schema) (req : request) : option response :=
  match validate schema (query req) false with
  | [] => None
  | error =>
      Some (Response 400 (ValidationError "Validation error" (map d_message error)))
  end.

(** ** Repository calls

    The handlers reach the database only through the Mongoose model.  A
    call resolves or rejects; the handler's code after [await] is the
    continuation on a resolved result and its [catch] block the one on a
    rejected result. *)

Inductive db_error : Type :=
| CastError          (* a value the schema type cannot hold *)
| DocumentInvalid    (* document validation failed on save *)
| TransactionError   (* commit or abort without a transaction *)
| StorageError.      (* the connection or the server failed *)

Inductive outcome (T : Type) : Type :=
| Resolved (t : T)
| Rejected (e : db_error).
Arguments Resolved {T} t.
Arguments Rejected {T} e.

(** The filter object the list handler builds; [q_date] holds the result of
    [new Date(date)], which may be an Invalid Date. *)
Record find_query : Type := mkQuery {
  q_location : option value;
  q_date : option (option Z);
  q_status : option value
}.

Inductive call : Type -> Type :=
| Event_save (fields : obj) : call found
    (* new Event(fields).save() *)
| Event_find (q : find_query) : call (list found)
| Event_findOneAndUpdate (id : string) (version : option value) (update : obj)
    : call (option found)
    (* Event.findOneAndUpdate({ _id: id, __v: version }, update, { new: true }) *)
| Event_findByIdAndDelete (id : string) : call (option found)
| Event_findByIdAndUpdate (id : string) (update : obj) : call (option found)
    (* Event.findByIdAndUpdate(id, update, { new: true, session }) *)
| startSession : call unit
| startTransaction : call unit
| commitTransaction : call unit
| abortTransaction : call unit
| endSession : call unit.

Inductive prog (A : Type) : Type :=
| Ret (a : A)
| Call {T : Type} (c : call T) (k : outcome T -> prog A).
Arguments Ret {A} a.
Arguments Call {A T} c k.

(** [app.METHOD(path, middleware, handler)] *)
Definition route (middleware : request -> option response)
    (handler : request -> prog response) (req : request) : prog response :=
  match middleware req with
  | Some answered => Ret answered
  | None => handler req
  end.

(** *** new.js *)

Definition post_events (req : request) : prog response :=
  Call (Event_save (body req)) (fun saved =>
    match saved with
    | Resolved savedEvent => Ret (Response 201 (EventBody savedEvent))
    | Rejected _ => Ret (Response 500 (Message "Error saving event"))
    end).

Definition get_events (req : request) : prog response :=
  let location := get "location" (query req) in
  let date := get "date" (query req) in
  let status := get "status" (query req) in
  let query :=
    mkQuery
      (if truthy_opt location then location else None)
      (match date with
       | Some d => if truthy d then Some (Date_of d) else None
       | None => None
       end)
      (if truthy_opt status then status else None) in
  Call (Event_find query) (fun found =>
    match found with
    | Resolved events => Ret (Response 200 (EventList events))
    | Rejected _ => Ret (Response 500 (Message "Error fetching events"))
    end).

Definition put_events_id (req : request) : prog response :=
  Call (Event_findOneAndUpdate (params_id req) (get "__v" (body req)) (body req))
    (fun updated =>
      match updated with
      | Resolved None =>
          Ret (Response 409
                 (Message "Event has been updated by another user. Please refresh."))
      | Resolved (Some event) => Ret (Response 200 (EventBody event))
      | Rejected _ => Ret (Response 500 (Message "Error updating event"))
      end).

Definition delete_events_id (req : request) : prog response :=
  Call (Event_findByIdAndDelete (params_id req)) (fun deleted =>
    match deleted with
    | Resolved None => Ret (Response 404 (Message "Event not found"))
    | Resolved (Some _) => Ret (Response 200 (Message "Event deleted successfully"))
    | Rejected _ => Ret (Response 500 (Message "Error deleting event"))
    end).

Definition app_post_events : request -> prog response :=
  route (validateRequest eventValidationSchema) post_events.

Definition app_get_events : request -> prog response :=
  route (validateQuery queryValidationSchema) get_events.

Definition app_put_events_id : request -> prog response :=
  route (validateRequest updateEventValidationSchema) put_events_id.

Definition app_delete_events_id : request -> prog response :=
  route (fun _ => None) delete_events_id.

(** *** try.js: the update route

    [startSession] is awaited outside [try]: when it rejects nothing answers
    the request.  A rejection inside [try] runs the [catch] block, which
    aborts the transaction before it answers 500; [finally] ends the
    session on every path. *)

Definition try_put_catch : prog response :=
  Call abortTransaction (fun aborted =>
    match aborted with
    | Resolved _ =>
        Call endSession (fun _ =>
          Ret (Response 500 (Message "Error updating event")))
    | Rejected _ => Call endSession (fun _ => Ret NoResponse)
    end).

Definition try_put_events_id (req : request) : prog response :=
  Call startSession (fun session =>
    match session with
    | Rejected _ => Ret NoResponse
    | Resolved _ =>
        Call startTransaction (fun started =>
          match started with
          | Rejected _ => try_put_catch
          | Resolved _ =>
              Call (Event_findByIdAndUpdate (params_id req) (body req))
                (fun updated =>
                  match updated with
                  | Rejected _ => try_put_catch
                  | Resolved event =>
                      Call commitTransaction (fun committed =>
                        match committed with
                        | Rejected _ => try_put_catch
                        | Resolved _ =>
                            Call endSession (fun _ =>
                              Ret (match event with
                                   | None =>
                                       Response 404 (Message "Event not found")
                                   | Some e => Response 200 (EventBody e)
                                   end))
                        end)
                  end)
          end)
    end).

Definition try_app_put_events_id : request -> prog response :=
  route (validateRequest eventValidationSchema) try_put_events_id.

(** ** The Mongoose model

    The collection is the list of stored documents in insertion order.
    [next_id] stands for the driver's ObjectId generator, which hands out an
    identifier it has not handed out before.  [transaction] holds the
    documents as they were when the open transaction started. *)

Record db : Type := mkDb {
  docs : list doc;
  next_id : N;
  transaction : option (list doc)
}.

(** *** Casting *)

Definition hex_digit (c : ascii) : option N :=
  let n := N_of_ascii c in
  if ((48 <=? n) && (n <=? 57))%N then Some (n - 48)%N
  else if ((97 <=? n) && (n <=? 102))%N then Some (n - 87)%N
  else if ((65 <=? n) && (n <=? 70))%N then Some (n - 55)%N
  else None.

Fixpoint hex_value (s : string) (acc : N) : option N :=
  match s with
  | EmptyString => Some acc
  | String c rest =>
      match hex_digit c with
      | Some d => hex_value rest (16 * acc + d)%N
      | None => None
      end
  end.

(** The cast of a route parameter to an ObjectId, a 12-byte number: a
    string of 24 hexadecimal digits is read as its hexadecimal form; any
    other string throws. *)
Definition castObjectId (id : string) : option N :=
  if (String.length id =? 24)%nat then hex_value id 0%N else None.

Definition Z_to_string (n : Z) : string := NilZero.string_of_int (Z.to_int n).

Definition castString (v : value) : option string :=
  match v with
  | VStr s => Some s
  | VNum n => Some (Z_to_string n)
  | VBool true => Some "true"
  | VBool false => Some "false"
  | VNull | VArr _ | VObj _ => None
  end.

(** What a schema path makes of the value it is given.  An explicit [null],
    which validation rejects for every field, is not told apart from
    [undefined]. *)
Inductive casted (T : Type) : Type :=
| Unset
| Held (t : T)
| Uncastable.
Arguments Unset {T}.
Arguments Held {T} t.
Arguments Uncastable {T}.

Definition cast_path {T : Type} (cast : value -> option T)
    (item : option value) : casted T :=
  match item with
  | None | Some VNull => Unset
  | Some v =>
      match cast v with
      | Some t => Held t
      | None => Uncastable
      end
  end.

Definition cast_date_path (item : option value) : casted Z :=
  match item with
  | Some (VStr EmptyString) => Unset
  | _ => cast_path castDate item
  end.

(** *** [new Event(fields)] and the validation [save] runs

    [EventSchema]: [title], [location] and [date] are required,
    [description] has [maxLength: 500], [status] is one of the three
    statuses and defaults to ["active"].  Keys outside the schema are
    dropped, and the fields never name [_id] (no validation schema declares
    it), so the identifier is the generator's.  [None] when validation
    fails.  The version key of an inserted document is 0. *)

Definition required_string (s : string) : bool := negb (String.eqb s "").

Definition description_path (d : casted string) : option (option string) :=
  match d with
  | Unset => Some None
  | Held s => if (js_length s <=? 500)%nat then Some (Some s) else None
  | Uncastable => None
  end.

Definition status_path (s : casted string) : option string :=
  match s with
  | Unset => Some "active"
  | Held x => if mem_string x statuses then Some x else None
  | Uncastable => None
  end.

Definition new_Event (fields : obj) (id : N) : option doc :=
  match cast_path castString (get "title" fields),
        cast_path castString (get "location" fields),
        cast_date_path (get "date" fields) with
  | Held t, Held l, Held d =>
      if required_string t && required_string l then
        match description_path (cast_path castString (get "description" fields)),
              status_path (cast_path castString (get "status" fields)) with
        | Some descr, Some st => Some (mkDoc id t descr l d st 0)
        | _, _ => None
        end
      else None
  | _, _, _ => None
  end.

(** *** Updates

    An update object without operators is a [$set] of the paths it names;
    only a path that cannot be cast rejects the call (update validators are
    off).  Mongoose increments the version key on [save] only, and nothing
    in the source adds an [$inc] to the update: the version is written only
    when the update object names [__v], with the value it gives. *)

Record changes : Type := mkChanges {
  set_title : option string;
  set_description : option string;
  set_location : option string;
  set_date : option Z;
  set_status : option string;
  set_v : option Z
}.

Definition set_of {T : Type} (c : casted T) : option (option T) :=
  match c with
  | Unset => Some None
  | Held t => Some (Some t)
  | Uncastable => None
  end.

Definition castUpdate (update : obj) : option changes :=
  match set_of (cast_path castString (get "title" update)),
        set_of (cast_path castString (get "description" update)),
        set_of (cast_path castString (get "location" update)),
        set_of (cast_date_path (get "date" update)),
        set_of (cast_path castString (get "status" update)),
        set_of (cast_path castNumber (get "__v" update)) with
  | Some t, Some de, Some l, Some d, Some s, Some v => Some (mkChanges t de l d s v)
  | _, _, _, _, _, _ => None
  end.

Definition or_keep {T : Type} (new : option T) (old : T) : T :=
  match new with Some x => x | None => old end.

Definition apply_changes (c : changes) (d : doc) : doc :=
  mkDoc (_id d)
    (or_keep (set_title c) (title d))
    (match set_description c with Some x => Some x | None => description d end)
    (or_keep (set_location c) (location d))
    (or_keep (set_date c) (date d))
    (or_keep (set_status c) (status d))
    (or_keep (set_v c) (__v d)).

(** The first document the filter matches is replaced; the others stay. *)
Fixpoint update_first (matches : doc -> bool) (f : doc -> doc) (l : list doc)
    : option doc * list doc :=
  match l with
  | [] => (None, [])
  | d :: rest =>
      if matches d then (Some (f d), f d :: rest)
      else let (r, rest') := update_first matches f rest in (r, d :: rest')
  end.

Fixpoint remove_first (matches : doc -> bool) (l : list doc)
    : option doc * list doc :=
  match l with
  | [] => (None, [])
  | d :: rest =>
      if matches d then (Some d, rest)
      else let (r, rest') := remove_first matches rest in (r, d :: rest')
  end.

(** *** Filters *)

Record criteria : Type := mkCriteria {
  c_location : option string;
  c_date : option Z;
  c_status : option string
}.

Definition cast_string_filter (v : option value) : option (option string) :=
  match v with
  | None => Some None
  | Some x =>
      match castString x with
      | Some s => Some (Some s)
      | None => None
      end
  end.

Definition castFilter (q : find_query) : option criteria :=
  match cast_string_filter (q_location q), q_date q, cast_string_filter (q_status q) with
  | Some l, None, Some s => Some (mkCriteria l None s)
  | Some l, Some (Some t), Some s => Some (mkCriteria l (Some t) s)
  | _, _, _ => None
  end.

Definition eq_or_any {T : Type} (eqb : T -> T -> bool) (wanted : option T) (x : T) : bool :=
  match wanted with Some w => eqb w x | None => true end.

Definition matches (c : criteria) (d : doc) : bool :=
  eq_or_any String.eqb (c_location c) (location d)
  && eq_or_any Z.eqb (c_date c) (date d)
  && eq_or_any String.eqb (c_status c) (status d).

(** What a query returns of a document: [select_v] is false when the schema
    declares [__v] with [select: false]. *)
Definition visible (select_v : bool) (d : doc) : found :=
  mkFound d (if select_v then Some (__v d) else None).

Definition has_id (i : N) (d : doc) : bool := (_id d =? i)%N.

Definition has_id_and_version (i : N) (v : Z) (d : doc) : bool :=
  has_id i d && (__v d =? v).

(** *** One repository call

    Casting and document validation come first and reject without touching
    the server; [fault] says that the server or the connection fails on
    this call. *)

Definition with_docs (st : db) (l : list doc) : db :=
  mkDb l (next_id st) (transaction st).

Definition mongoose {T : Type} (select_v : bool) (c : call T) (fault : bool)
    (st : db) : outcome T * db :=
  match c in call T0 return outcome T0 * db with
  | Event_save fields =>
      let st' := mkDb (docs st) (N.succ (next_id st)) (transaction st) in
      match new_Event fields (next_id st) with
      | None => (Rejected DocumentInvalid, st')
      | Some d =>
          if fault then (Rejected StorageError, st')
          else (Resolved (mkFound d (Some (__v d))), with_docs st' (docs st ++ [d]))
      end
  | Event_find q =>
      match castFilter q with
      | None => (Rejected CastError, st)
      | Some c =>
          if fault then (Rejected StorageError, st)
          else (Resolved (map (visible select_v) (filter (matches c) (docs st))), st)
      end
  | Event_findOneAndUpdate id version update =>
      match castObjectId id, cast_path castNumber version, castUpdate update with
      | None, _, _ | _, Uncastable, _ | _, _, None => (Rejected CastError, st)
      | Some i, Unset, Some _ =>
          (* { __v: undefined } matches a document without a version key *)
          if fault then (Rejected StorageError, st) else (Resolved None, st)
      | Some i, Held v, Some ch =>
          if fault then (Rejected StorageError, st)
          else
            let (r, l) :=
              update_first (has_id_and_version i v) (apply_changes ch) (docs st) in
            (Resolved (option_map (visible select_v) r), with_docs st l)
      end
  | Event_findByIdAndUpdate id update =>
      match castObjectId id, castUpdate update with
      | None, _ | _, None => (Rejected CastError, st)
      | Some i, Some ch =>
          if fault then (Rejected StorageError, st)
          else
            let (r, l) := update_first (has_id i) (apply_changes ch) (docs st) in
            (Resolved (option_map (visible select_v) r), with_docs st l)
      end
  | Event_findByIdAndDelete id =>
      match castObjectId id with
      | None => (Rejected CastError, st)
      | Some i =>
          if fault then (Rejected StorageError, st)
          else
            let (r, l) := remove_first (has_id i) (docs st) in
            (Resolved (option_map (visible select_v) r), with_docs st l)
      end
  | startSession =>
      if fault then (Rejected StorageError, st) else (Resolved tt, st)
  | startTransaction =>
      match transaction st with
      | Some _ => (Rejected TransactionError, st)
      | None => (Resolved tt, mkDb (docs st) (next_id st) (Some (docs st)))
      end
  | commitTransaction =>
      match transaction st with
      | None => (Rejected TransactionError, st)
      | Some before =>
          (* the session counts the transaction as committed whether or not
             the command went through, so a later abort is refused; the
             server, which did not commit, drops the writes *)
          if fault then (Rejected StorageError, mkDb before (next_id st) None)
          else (Resolved tt, mkDb (docs st) (next_id st) None)
      end
  | abortTransaction =>
      match transaction st with
      | None => (Rejected TransactionError, st)
      | Some before =>
          (if fault then Rejected StorageError else Resolved tt,
           mkDb before (next_id st) None)
      end
  | endSession =>
      match transaction st with
      | None => (Resolved tt, st)
      | Some before => (Resolved tt, mkDb before (next_id st) None)
      end
  end.

(** *** Running a handler

    [faults] says, call by call, whether the server fails; past its end the
    server is healthy.  The run returns the response, the database and the
    calls made, oldest first. *)

Inductive called : Type :=
| Called {T : Type} (c : call T).

Fixpoint exec {A : Type} (select_v : bool) (p : prog A) (faults : list bool)
    (st : db) : A * db * list called :=
  match p with
  | Ret a => (a, st, [])
  | Call c k =>
      let (r, st') := mongoose select_v c (hd false faults) st in
      let '(a, st'', trace) := exec select_v (k r) (tl faults) st' in
      (a, st'', Called c :: trace)
  end.

(** [new.js] hides the version key from query results, [try.js] does not. *)
Definition run_new (p : prog response) (faults : list bool) (st : db) :=
  exec false p faults st.

Definition run_try (p : prog response) (faults : list bool) (st : db) :=
  exec true p faults st.

Definition response_of (r : response * db * list called) : response := fst (fst r).
Definition db_of (r : response * db * list called) : db := snd (fst r).
Definition calls_of (r : response * db * list called) : list called := snd r.

Local Open Scope list_scope.

(** ** The service over time

    The four routes of [new.js], and a run of the service over a script of
    requests, each with the faults the server shows while it is handled. *)

Inductive http : Type :=
| POST (req : request)
| GET (req : request)
| PUT (req : request)
| DELETE (req : request).

Definition app (h : http) : prog response :=
  match h with
  | POST req => app_post_events req
  | GET req => app_get_events req
  | PUT req => app_put_events_id req
  | DELETE req => app_delete_events_id req
  end.

Fixpoint serve (script : list (http * list bool)) (st : db) : list response * db :=
  match script with
  | [] => ([], st)
  | (h, faults) :: rest =>
      let st' := db_of (run_new (app h) faults st) in
      let (rs, st'') := serve rest st' in
      (response_of (run_new (app h) faults st) :: rs, st'')
  end.

(** The identifier a response announces as newly created. *)
Definition created_id (r : response) : option N :=
  match r with
  | Response c (EventBody e) => if c =? 201 then Some (_id (f_doc e)) else None
  | _ => None
  end.

Fixpoint created_ids (rs : list response) : list N :=
  match rs with
  | [] => []
  | r :: rest =>
      match created_id r with
      | Some i => i :: created_ids rest
      | None => created_ids rest
      end
  end.

(** The generator is ahead of every identifier in the database. *)
Definition ids_below (st : db) : Prop :=
  Forall (fun d => (_id d < next_id st)%N) (docs st)
  /\ match transaction st with
     | Some before => Forall (fun d => (_id d < next_id st)%N) before
     | None => True
     end.

(** ** What exhaustive validation has to list

    The constraints a payload violates, taken one by one and with no early
    exit: those of every declared key, one per key no declaration covers,
    one per [.or(...)] none of whose peers is present. *)

Definition field_violations (k : key_schema) (o : obj) : list detail :=
  validate_key false k (get (k_name k) o).

Definition undeclared_keys (S : object_schema) (o : obj) : list string :=
  filter (fun name => negb (declared S name)) (object_keys o).

Definition unmet_dependencies (S : object_schema) (o : obj) : list (list string) :=
  filter (fun peers => negb (existsb (fun p => has_key p o) peers)) (or_peers S).

Definition violated_constraints (S : object_schema) (o : obj) : list detail :=
  flat_map (fun k => field_violations k o) (keys S)
  ++ map unknown_report (undeclared_keys S o)
  ++ map missing_report (unmet_dependencies S o).

Definition violated_fields (S : object_schema) (o : obj) : list key_schema :=
  filter (fun k => match field_violations k o with [] => false | _ => true end)
    (keys S).

(** The two validation middlewares differ in the part of the request they
    validate. *)
Inductive part : Type := Body | Query.

Definition payload_of (p : part) (req : request) : obj :=
  match p with Body => body req | Query => query req end.

Definition validation_middleware (p : part)
    : object_schema -> request -> option response :=
  match p with Body => validateRequest | Query => validateQuery end.

(** No designated field of the list query is present. *)
Definition no_filter (q : obj) : bool :=
  negb (has_key "location" q || has_key "date" q || has_key "status" q).

(** The request carries a version, and no stored event has both the
    request's id and that version: the version is stale, or no event has the
    id at all. *)
Definition version_mismatch (st : db) (req : request) : Prop :=
  exists v,
    get "__v" (body req) = Some v
    /\ forall d, In d (docs st) ->
                castObjectId (params_id req) = Some (_id d) ->
                castNumber v <> Some (__v d).

(** ** try.js: the other routes

    The create and delete routes of [try.js] have the shape of its update
    route: a session, a transaction around the one model call, the [catch]
    block that aborts, the [finally] block that ends the session.  Its list
    route is the one of [new.js], word for word. *)

Definition try_catch (message : string) : prog response :=
  Call abortTransaction (fun aborted =>
    match aborted with
    | Resolved _ =>
        Call endSession (fun _ => Ret (Response 500 (Message message)))
    | Rejected _ => Call endSession (fun _ => Ret NoResponse)
    end).

Definition try_post_events (req : request) : prog response :=
  Call startSession (fun session =>
    match session with
    | Rejected _ => Ret NoResponse
    | Resolved _ =>
        Call startTransaction (fun started =>
          match started with
          | Rejected _ => try_catch "Error saving event"
          | Resolved _ =>
              Call (Event_save (body req)) (fun saved =>
                match saved with
                | Rejected _ => try_catch "Error saving event"
                | Resolved savedEvent =>
                    Call commitTransaction (fun committed =>
                      match committed with
                      | Rejected _ => try_catch "Error saving event"
                      | Resolved _ =>
                          Call endSession (fun _ =>
                            Ret (Response 201 (EventBody savedEvent)))
                      end)
                end)
          end)
    end).

Definition try_delete_events_id (req : request) : prog response :=
  Call startSession (fun session =>
    match session with
    | Rejected _ => Ret NoResponse
    | Resolved _ =>
        Call startTransaction (fun started =>
          match started with
          | Rejected _ => try_catch "Error deleting event"
          | Resolved _ =>
              Call (Event_findByIdAndDelete (params_id req)) (fun deleted =>
                match deleted with
                | Rejected _ => try_catch "Error deleting event"
                | Resolved deletedEvent =>
                    Call commitTransaction (fun committed =>
                      match committed with
                      | Rejected _ => try_catch "Error deleting event"
                      | Resolved _ =>
                          Call endSession (fun _ =>
                            Ret (match deletedEvent with
                                 | None =>
                                     Response 404 (Message "Event not found")
                                 | Some _ =>
                                     Response 200
                                       (Message "Event deleted successfully")
                                 end))
                      end)
                end)
          end)
    end).

Definition try_app_post_events : request -> prog response :=
  route (validateRequest eventValidationSchema) try_post_events.

Definition try_app_get_events : request -> prog response :=
  route (validateQuery queryValidationSchema) get_events.

Definition try_app_delete_events_id : request -> prog response :=
  route (fun _ => None) try_delete_events_id.

Definition try_app (h : http) : prog response :=
  match h with
  | POST req => try_app_post_events req
  | GET req => try_app_get_events req
  | PUT req => try_app_put_events_id req
  | DELETE req => try_app_delete_events_id req
  end.

(** ** Vocabulary for the properties *)

(** What the validation middleware of a route of [new.js] answers, if it
    answers. *)
Definition middleware_of (h : http) : option response :=
  match h with
  | POST req => validateRequest eventValidationSchema req
  | GET req => validateQuery queryValidationSchema req
  | PUT req => validateRequest updateEventValidationSchema req
  | DELETE _ => None
  end.

(** The [try.js] update route validates with the create schema. *)
Definition try_middleware_of (h : http) : option response :=
  match h with
  | POST req | PUT req => validateRequest eventValidationSchema req
  | GET req => validateQuery queryValidationSchema req
  | DELETE _ => None
  end.

(** The keys of the body schemas, by name. *)
Definition title_key : key_schema :=
  mkKey "title" JString true None None None [(string_empty, "Title is required")].

Definition description_key : key_schema :=
  mkKey "description" JString false None None (Some 500%nat)
    [(string_max, "Description cannot exceed 500 characters")].

Definition location_key : key_schema :=
  mkKey "location" JString true None None None
    [(string_empty, "Location is required")].

Definition status_key : key_schema :=
  mkKey "status" JString false (Some statuses) None None [].

(** The status codes the handlers of a route send. *)
Definition answers_of (h : http) : list Z :=
  match h with
  | POST _ => [201; 400; 500]
  | GET _ => [200; 400; 500]
  | PUT _ => [200; 400; 409; 500]
  | DELETE _ => [200; 404; 500]
  end.

(** The message of a route's [catch] block. *)
Definition error_message (h : http) : string :=
  match h with
  | POST _ => "Error saving event"
  | GET _ => "Error fetching events"
  | PUT _ => "Error updating event"
  | DELETE _ => "Error deleting event"
  end.

Definition is_commit (c : called) : bool :=
  match c with Called commitTransaction => true | Called _ => false end.

Definition is_abort (c : called) : bool :=
  match c with Called abortTransaction => true | Called _ => false end.

Definition succeeded (r : response) : bool :=
  match r with
  | Response c _ => (c =? 200) || (c =? 201)
  | NoResponse => false
  end.

(** What [EventSchema] and the validation schemas ask of a stored event. *)
Definition well_formed (d : doc) : Prop :=
  title d <> ""
  /\ location d <> ""
  /\ mem_string (status d) statuses = true
  /\ match description d with
     | Some s => (js_length s <= 500)%nat
     | None => True
     end.

(** ** Sample data

    The scenario of the specification: an event "Event 1" at "Hall" on
    2024-12-12, and requests about it. *)

Definition sample_id : string := "65f1c0de65f1c0de65f1c0de".
Definition sample_oid : N := 31550247911370737436352168158%N.

Definition sample_doc : doc :=
  mkDoc sample_oid "Event 1" None "Hall" 1733961600000 "active" 0.

Definition sample_db : db := mkDb [sample_doc] (N.succ sample_oid) None.

Definition empty_db : db := mkDb [] 0%N None.

Definition create_fields : obj :=
  [("title", VStr "Event 1"); ("location", VStr "Hall"); ("date", VStr "2024-12-12")].

Definition update_fields (version : Z) : obj :=
  [("title", VStr "Updated"); ("location", VStr "Hall");
   ("date", VStr "2024-12-12"); ("__v", VNum version)].

(** * Properties *)

(** ** Joi validation without [abortEarly] *)

Lemma validate_keys_all (ks : list key_schema) (o : obj) (errors : list detail) :
  validate_keys false ks o errors
  = (false, errors ++ flat_map (fun k => field_violations k o) ks).
Proof.
  revert errors; induction ks as [|k ks IH]; intros errors; simpl.
  - now rewrite app_nil_r.
  - unfold field_violations at 1.
    destruct (validate_key false k (get (k_name k) o)) as [|e es] eqn:E.
    + now rewrite IH.
    + rewrite IH. now rewrite <- app_assoc.
Qed.

Lemma unknown_all (names : list string) (errors : list detail) :
  unknown false names errors = (false, errors ++ map unknown_report names).
Proof.
  revert errors; induction names as [|n ns IH]; intros errors; simpl.
  - now rewrite app_nil_r.
  - rewrite IH. now rewrite <- app_assoc.
Qed.

Lemma dependencies_all (deps : list (list string)) (o : obj) (errors : list detail) :
  dependencies false deps o errors
  = errors
    ++ map missing_report
         (filter (fun peers => negb (existsb (fun p => has_key p o) peers)) deps).
Proof.
  revert errors; induction deps as [|peers deps IH]; intros errors; simpl.
  - now rewrite app_nil_r.
  - destruct (existsb (fun p => has_key p o) peers); simpl.
    + apply IH.
    + rewrite IH. now rewrite <- app_assoc.
Qed.

(** With [abortEarly: false] the validator's loops report exactly the
    violated constraints, in their order. *)
Lemma validate_exhaustive (S : object_schema) (o : obj) :
  validate S o false = violated_constraints S o.
Proof.
  unfold validate, violated_constraints.
  rewrite validate_keys_all. simpl.
  rewrite unknown_all.
  rewrite dependencies_all.
  unfold undeclared_keys, unmet_dependencies.
  now rewrite <- app_assoc.
Qed.

Lemma middleware_spec (p : part) (S : object_schema) (req : request) :
  validation_middleware p S req
  = match violated_constraints S (payload_of p req) with
    | [] => None
    | errors =>
        Some (Response 400
                (ValidationError "Validation error" (map d_message errors)))
    end.
Proof.
  destruct p; simpl; unfold validateRequest, validateQuery;
    now rewrite validate_exhaustive.
Qed.

Lemma middleware_rejects (p : part) (S : object_schema) (req : request) (e : detail) :
  In e (violated_constraints S (payload_of p req)) ->
  validation_middleware p S req
  = Some (Response 400
            (ValidationError "Validation error"
               (map d_message (violated_constraints S (payload_of p req))))).
Proof.
  intros Hin. rewrite middleware_spec.
  destruct (violated_constraints S (payload_of p req)); [destruct Hin | reflexivity].
Qed.

Lemma field_violations_reported (S : object_schema) (o : obj) (k : key_schema)
    (e : detail) :
  In k (keys S) -> In e (field_violations k o) -> In e (violated_constraints S o).
Proof.
  intros Hk He. unfold violated_constraints.
  apply in_or_app; left. apply in_flat_map. now exists k.
Qed.

Lemma violated_fields_counted (ks : list key_schema) (o : obj) :
  (List.length
     (filter (fun k => match field_violations k o with [] => false | _ => true end) ks)
   <= List.length (flat_map (fun k => field_violations k o) ks))%nat.
Proof.
  induction ks as [|k ks IH]; simpl; [lia|].
  rewrite length_app.
  destruct (field_violations k o); simpl; lia.
Qed.

(** A route whose middleware answers makes no repository call. *)
Lemma route_answered (select_v : bool) (mw : request -> option response)
    (h : request -> prog response) (req : request) (r : response)
    (faults : list bool) (st : db) :
  mw req = Some r -> exec select_v (route mw h req) faults st = (r, st, []).
Proof. intros H. unfold route. now rewrite H. Qed.

Lemma route_passed (select_v : bool) (mw : request -> option response)
    (h : request -> prog response) (req : request)
    (faults : list bool) (st : db) :
  mw req = None ->
  exec select_v (route mw h req) faults st = exec select_v (h req) faults st.
Proof. intros H. unfold route. now rewrite H. Qed.

(** With [abortEarly: true], which the middleware does not ask for, the
    same validator stops at the first error. *)
Lemma validate_keys_abort (ks : list key_schema) (o : obj) :
  (List.length (snd (validate_keys true ks o [])) <= 1)%nat
  /\ (fst (validate_keys true ks o []) = false -> validate_keys true ks o [] = (false, [])).
Proof.
  induction ks as [|k ks IH]; simpl; [split; [lia | reflexivity]|].
  destruct (validate_key true k (get (k_name k) o)) as [|e es] eqn:E; [exact IH|].
  simpl. split; [|discriminate].
  unfold validate_key in E.
  destruct (get (k_name k) o) as [v|].
  - destruct (k_valid k) as [vs|].
    + destruct (is_allowed vs v); [discriminate|].
      simpl in E. injection E as _ <-. simpl; lia.
    + unfold first_error in E.
      destruct (base_and_rules k v) as [|b bs]; simpl in E; [discriminate|].
      injection E as _ <-. simpl; lia.
  - destruct (k_required k); [|discriminate].
    injection E as _ <-. simpl; lia.
Qed.

Lemma abortEarly_stops_at_first (S : object_schema) (o : obj) :
  (List.length (validate S o true) <= 1)%nat.
Proof.
  unfold validate.
  destruct (validate_keys_abort (keys S) o) as [Hlen Hnone].
  destruct (validate_keys true (keys S) o []) as [[|] errors] eqn:E; simpl in *.
  - exact Hlen.
  - specialize (Hnone eq_refl). injection Hnone as ->.
    destruct (filter (fun name => negb (declared S name)) (object_keys o)); simpl.
    + induction (or_peers S) as [|peers deps IH]; simpl; [lia|].
      destruct (existsb (fun p => has_key p o) peers); simpl; [exact IH | lia].
    + lia.
Qed.

(** The errors of a declared key are about that key, never about the
    object as a whole. *)
Lemma field_violation_code (k : key_schema) (item : option value) (e : detail) :
  In e (validate_key false k item) ->
  d_label e = k_name k /\ d_code e <> object_missing /\ d_code e <> object_unknown.
Proof.
  assert (R : forall c n, c <> object_missing -> c <> object_unknown ->
            e = report k c n ->
            d_label e = k_name k /\ d_code e <> object_missing
            /\ d_code e <> object_unknown)
    by (intros c n H1 H2 ->; now simpl).
  assert (B : forall v, In e (base_and_rules k v) ->
            d_label e = k_name k /\ d_code e <> object_missing
            /\ d_code e <> object_unknown).
  { intros v. unfold base_and_rules, string_rules.
    destruct (k_type k); destruct v; simpl;
      repeat match goal with
             | |- context [if ?b then _ else _] => destruct b; simpl
             | |- context [match ?x with Some _ => _ | None => _ end] =>
                 destruct x; simpl
             end;
      intros H;
      repeat match goal with
             | H : _ \/ _ |- _ => destruct H as [H|H]
             | H : False |- _ => destruct H
             | H : report _ _ _ = _ |- _ =>
                 symmetry in H; eapply R; [| |exact H]; discriminate
             end. }
  unfold validate_key, first_error.
  destruct item as [v|].
  - destruct (k_valid k) as [vs|].
    + destruct (is_allowed vs v); [intros []|].
      intros [H|H]; [symmetry in H; eapply R; [| |exact H]; discriminate|].
      now apply (B v).
    + apply B.
  - destruct (k_required k); [|intros []].
    intros [H|[]]. symmetry in H; eapply R; [| |exact H]; discriminate.
Qed.

(** C5. Validation is exhaustive, for body and query payloads alike: when a
    payload violates the schema in more than one field, the middleware
    answers 400 and the details hold one message per violated constraint,
    those of every violated field among them, so at least as many messages
    as there are violated fields. *)
Theorem validation_reports_every_violation (p : part) (S : object_schema)
    (req : request) :
  (2 <= List.length (violated_fields S (payload_of p req)))%nat ->
  exists details,
    validation_middleware p S req
    = Some (Response 400 (ValidationError "Validation error" details))
    /\ details = map d_message (violated_constraints S (payload_of p req))
    /\ (forall k e,
          In k (keys S) -> In e (field_violations k (payload_of p req)) ->
          In (d_message e) details)
    /\ (List.length (violated_fields S (payload_of p req))
        <= List.length details)%nat.
Proof.
  intros Hmany.
  set (o := payload_of p req) in *.
  exists (map d_message (violated_constraints S o)).
  assert (Hcount : (List.length (violated_fields S o)
                    <= List.length (violated_constraints S o))%nat).
  { unfold violated_constraints. rewrite length_app.
    pose proof (violated_fields_counted (keys S) o). unfold violated_fields. lia. }
  repeat split.
  - assert (Hsome : exists e, In e (violated_constraints S o)).
    { destruct (violated_constraints S o) as [|e es]; [simpl in Hcount; lia|].
      exists e. now left. }
    destruct Hsome as [e He]. exact (middleware_rejects p S req e He).
  - intros k e Hk He. apply in_map.
    now apply field_violations_reported with k.
  - now rewrite length_map.
Qed.

(** C6. A list query in which none of location, date and status is present
    fails validation on the or-constraint and is answered 400 without a
    repository call; a query with at least one of them present raises no
    or-constraint error. *)
Theorem list_query_needs_a_filter (req : request) (faults : list bool) (st : db) :
  (no_filter (query req) = true ->
   run_new (app_get_events req) faults st
   = (Response 400
        (ValidationError "Validation error"
           (map d_message
              (violated_constraints queryValidationSchema (query req)))),
      st, [])
   /\ In (missing_report ["location"; "date"; "status"])
        (validate queryValidationSchema (query req) false))
  /\ (no_filter (query req) = false ->
      forall e, In e (validate queryValidationSchema (query req) false) ->
                d_code e <> object_missing).
Proof.
  split.
  - intros Hnone.
    assert (Hin : In (missing_report ["location"; "date"; "status"])
                    (violated_constraints queryValidationSchema (query req))).
    { unfold violated_constraints. apply in_or_app; right. apply in_or_app; right.
      unfold unmet_dependencies, no_filter in *. simpl.
      destruct (has_key "location" (query req)), (has_key "date" (query req)),
        (has_key "status" (query req)); try discriminate.
      now left. }
    split; [|now rewrite validate_exhaustive].
    unfold run_new, app_get_events. apply route_answered.
    apply (middleware_rejects Query queryValidationSchema req _ Hin).
  - intros Hsome e. rewrite validate_exhaustive. unfold violated_constraints.
    intros Hin. apply in_app_or in Hin. destruct Hin as [Hin|Hin].
    + apply in_flat_map in Hin. destruct Hin as [k [_ Hk]].
      now apply field_violation_code in Hk.
    + apply in_app_or in Hin. destruct Hin as [Hin|Hin].
      * apply in_map_iff in Hin. destruct Hin as [name [<- _]]. discriminate.
      * unfold unmet_dependencies, no_filter in *. simpl in Hin.
        destruct (has_key "location" (query req)), (has_key "date" (query req)),
          (has_key "status" (query req)); try discriminate; destruct Hin.
Qed.

Lemma undeclared_key_reported (S : object_schema) (o : obj) (name : string) :
  In name (object_keys o) -> ~ In name (map k_name (keys S)) ->
  In (unknown_report name) (violated_constraints S o).
Proof.
  intros Hkey Hnot. unfold violated_constraints.
  apply in_or_app; right. apply in_or_app; left. apply in_map.
  unfold undeclared_keys. apply filter_In. split; [exact Hkey|].
  unfold declared, mem_string.
  destruct (existsb (String.eqb name) (map k_name (keys S))) eqn:E; [|reflexivity].
  apply existsb_exists in E. destruct E as [x [Hx Heq]].
  apply String.eqb_eq in Heq. subst x. contradiction.
Qed.

(** C9. A create or update request whose body has a key outside the declared
    fields (title, description, location, date, status, and __v for update)
    fails validation: the route answers 400, with the message about that
    key among the details, and makes no repository call. *)
Theorem unknown_key_is_rejected (req : request) (name : string)
    (faults : list bool) (st : db) :
  In name (object_keys (body req)) ->
  (~ In name ["title"; "description"; "location"; "date"; "status"] ->
   exists details,
     run_new (app_post_events req) faults st
     = (Response 400 (ValidationError "Validation error" details), st, [])
     /\ In (d_message (unknown_report name)) details)
  /\ (~ In name ["title"; "description"; "location"; "date"; "status"; "__v"] ->
      exists details,
        run_new (app_put_events_id req) faults st
        = (Response 400 (ValidationError "Validation error" details), st, [])
        /\ In (d_message (unknown_report name)) details).
Proof.
  intros Hkey. split; intros Hnot.
  - pose proof (undeclared_key_reported eventValidationSchema (body req) name
                  Hkey Hnot) as Hin.
    eexists. split.
    + unfold run_new, app_post_events. apply route_answered.
      apply (middleware_rejects Body eventValidationSchema req _ Hin).
    + now apply in_map.
  - pose proof (undeclared_key_reported updateEventValidationSchema (body req) name
                  Hkey Hnot) as Hin.
    eexists. split.
    + unfold run_new, app_put_events_id. apply route_answered.
      apply (middleware_rejects Body updateEventValidationSchema req _ Hin).
    + now apply in_map.
Qed.

(** ** The collection *)

Lemma with_docs_same (st : db) : with_docs st (docs st) = st.
Proof. now destruct st. Qed.

Lemma remove_first_absent (m : doc -> bool) (l : list doc) :
  (forall d, In d l -> m d = false) -> remove_first m l = (None, l).
Proof.
  induction l as [|d l IH]; intros H; simpl; [reflexivity|].
  rewrite (H d (or_introl eq_refl)).
  rewrite IH; [reflexivity|]. intros d' Hd'. apply H. now right.
Qed.

Lemma remove_first_present (m : doc -> bool) (l : list doc) (d : doc) :
  In d l -> m d = true ->
  exists d' l', remove_first m l = (Some d', l') /\ In d' l /\ m d' = true.
Proof.
  induction l as [|x l IH]; intros Hin Hm; [destruct Hin|].
  simpl. destruct (m x) eqn:E.
  - exists x, l. split; [reflexivity|]. split; [now left | exact E].
  - destruct Hin as [->|Hin]; [congruence|].
    destruct (IH Hin Hm) as [d' [l' [Hr [Hd' Hm']]]].
    rewrite Hr. exists d', (x :: l').
    split; [reflexivity|]. split; [now right | exact Hm'].
Qed.

(** Once the one document with identifier [i] is removed, none is left. *)
Lemma remove_first_unique (i : N) (l : list doc) (d : doc) (l' : list doc) :
  NoDup (map _id l) -> remove_first (has_id i) l = (Some d, l') ->
  forall x, In x l' -> has_id i x = false.
Proof.
  revert l'. induction l as [|y l IH]; intros l' Hnd Hr; simpl in Hr; [discriminate|].
  inversion Hnd as [|? ? Hnotin Hnd']; subst.
  destruct (has_id i y) eqn:E.
  - injection Hr as <- <-. intros x Hx.
    unfold has_id in *. apply N.eqb_eq in E.
    destruct (_id x =? i)%N eqn:Ex; [|reflexivity].
    apply N.eqb_eq in Ex. exfalso. apply Hnotin.
    rewrite E, <- Ex. now apply in_map.
  - destruct (remove_first (has_id i) l) as [r rest] eqn:Er.
    injection Hr as -> <-. intros x [<-|Hx]; [exact E|].
    now apply (IH rest Hnd' eq_refl).
Qed.

Lemma update_first_absent (m : doc -> bool) (f : doc -> doc) (l : list doc) :
  (forall d, In d l -> m d = false) -> update_first m f l = (None, l).
Proof.
  induction l as [|d l IH]; intros H; simpl; [reflexivity|].
  rewrite (H d (or_introl eq_refl)).
  rewrite IH; [reflexivity|]. intros d' Hd'. apply H. now right.
Qed.


(** An update that rewrites the matched document to one with the same
    projection leaves that projection of the whole collection as it was. *)
Lemma update_first_map {B : Type} (g : doc -> B) (m : doc -> bool)
    (f : doc -> doc) (l : list doc) :
  (forall d, m d = true -> g (f d) = g d) ->
  map g (snd (update_first m f l)) = map g l.
Proof.
  intros H. induction l as [|x l IH]; simpl; [reflexivity|].
  destruct (m x) eqn:E; simpl.
  - now rewrite (H x E).
  - destruct (update_first m f l) as [r rest]. simpl in *. now rewrite IH.
Qed.

(** ** Deleting *)

Lemma delete_run (req : request) (faults : list bool) (st : db) (i : N) :
  castObjectId (params_id req) = Some i -> hd false faults = false ->
  run_new (app_delete_events_id req) faults st
  = (match fst (remove_first (has_id i) (docs st)) with
     | None => Response 404 (Message "Event not found")
     | Some _ => Response 200 (Message "Event deleted successfully")
     end,
     with_docs st (snd (remove_first (has_id i) (docs st))),
     [Called (Event_findByIdAndDelete (params_id req))]).
Proof.
  intros Hid Hok. unfold run_new, app_delete_events_id, route, delete_events_id.
  simpl. rewrite Hid, Hok.
  destruct (remove_first (has_id i) (docs st)) as [[d|] l]; reflexivity.
Qed.

(** C10. A delete whose id is no well-formed identifier is answered 500
    "Error deleting event", whatever the database holds: the cast error of
    the lookup reaches the catch block, and the answer is not 404. *)
Theorem malformed_id_delete_is_500 (req : request) (faults : list bool) (st : db) :
  castObjectId (params_id req) = None ->
  run_new (app_delete_events_id req) faults st
  = (Response 500 (Message "Error deleting event"), st,
     [Called (Event_findByIdAndDelete (params_id req))])
  /\ status_of (response_of (run_new (app_delete_events_id req) faults st))
     <> Some 404.
Proof.
  intros Hid.
  assert (E : run_new (app_delete_events_id req) faults st
              = (Response 500 (Message "Error deleting event"), st,
                 [Called (Event_findByIdAndDelete (params_id req))])).
  { unfold run_new, app_delete_events_id, route, delete_events_id.
    simpl. now rewrite Hid. }
  split; [exact E|]. rewrite E. simpl. discriminate.
Qed.

Lemma delete_absent (req : request) (faults : list bool) (st : db) (i : N) :
  castObjectId (params_id req) = Some i -> hd false faults = false ->
  (forall d, In d (docs st) -> _id d <> i) ->
  run_new (app_delete_events_id req) faults st
  = (Response 404 (Message "Event not found"), st,
     [Called (Event_findByIdAndDelete (params_id req))]).
Proof.
  intros Hid Hok Habsent.
  rewrite (delete_run req faults st i Hid Hok).
  rewrite remove_first_absent.
  - simpl. now rewrite with_docs_same.
  - intros d Hd. unfold has_id. apply N.eqb_neq. now apply Habsent.
Qed.

Lemma serve_delete_absent (req : request) (st : db) (i : N) (n : nat) :
  castObjectId (params_id req) = Some i ->
  (forall d, In d (docs st) -> _id d <> i) ->
  serve (repeat (DELETE req, []) n) st
  = (repeat (Response 404 (Message "Event not found")) n, st).
Proof.
  intros Hid Habsent. induction n as [|n IH]; simpl; [reflexivity|].
  rewrite (delete_absent req [] st i Hid eq_refl Habsent).
  unfold db_of, response_of. simpl. now rewrite IH.
Qed.

(** C8, amended. For a well-formed id no stored event has, delete answers
    404 "Event not found" whatever the database holds, and leaves it as it
    is, so repeating the delete yields 404 every time; deleting a stored
    event twice in a row yields 200 then 404. *)
Theorem delete_absent_id_is_404 (req : request) (i : N) (st : db) :
  castObjectId (params_id req) = Some i ->
  ((forall d, In d (docs st) -> _id d <> i) ->
   forall n,
     serve (repeat (DELETE req, []) n) st
     = (repeat (Response 404 (Message "Event not found")) n, st))
  /\ (NoDup (map _id (docs st)) ->
      (exists d, In d (docs st) /\ _id d = i) ->
      forall n,
        fst (serve (repeat (DELETE req, []) (S n)) st)
        = Response 200 (Message "Event deleted successfully")
          :: repeat (Response 404 (Message "Event not found")) n).
Proof.
  intros Hid. split.
  - intros Habsent n. now apply serve_delete_absent with i.
  - intros Hnd [d [Hd Hi]] n. simpl.
    rewrite (delete_run req [] st i Hid eq_refl).
    destruct (remove_first_present (has_id i) (docs st) d Hd) as [d' [l' [Hr _]]].
    { unfold has_id. now apply N.eqb_eq. }
    rewrite Hr. unfold db_of, response_of. simpl.
    rewrite (serve_delete_absent req (with_docs st l') i n Hid).
    + reflexivity.
    + simpl. intros x Hx.
      pose proof (remove_first_unique i (docs st) d' l' Hnd Hr x Hx) as Hne.
      unfold has_id in Hne. now apply N.eqb_neq.
Qed.

(** ** Valid payloads *)

Lemma valid_field (S : object_schema) (o : obj) (k : key_schema) :
  validate S o false = [] -> In k (keys S) -> field_violations k o = [].
Proof.
  rewrite validate_exhaustive. unfold violated_constraints.
  intros H Hk. apply app_eq_nil in H. destruct H as [H _].
  destruct (field_violations k o) as [|e es] eqn:E; [reflexivity|].
  assert (Hin : In e (flat_map (fun k => field_violations k o) (keys S))).
  { apply in_flat_map. exists k. split; [exact Hk|]. rewrite E. now left. }
  rewrite H in Hin. destruct Hin.
Qed.

(** A valid update body carries a version that is a number or a string. *)
Lemma valid_update_has_version (o : obj) :
  validate updateEventValidationSchema o false = [] ->
  exists v, get "__v" o = Some v /\ v <> VNull.
Proof.
  intros H.
  pose proof (valid_field updateEventValidationSchema o
                (mkKey "__v" JNumber true None None None
                   [(number_base, "Version is required")]) H) as Hv.
  unfold field_violations, validate_key in Hv. simpl in Hv.
  specialize (Hv (or_intror (or_intror (or_intror (or_intror (or_intror
                 (or_introl eq_refl))))))).
  destruct (get "__v" o) as [v|]; [|discriminate].
  exists v. split; [reflexivity|]. intros ->. discriminate.
Qed.

Lemma castUpdate_version (o : obj) (ch : changes) :
  castUpdate o = Some ch ->
  set_of (cast_path castNumber (get "__v" o)) = Some (set_v ch).
Proof.
  unfold castUpdate.
  destruct (set_of (cast_path castString (get "title" o))); [|discriminate].
  destruct (set_of (cast_path castString (get "description" o))); [|discriminate].
  destruct (set_of (cast_path castString (get "location" o))); [|discriminate].
  destruct (set_of (cast_date_path (get "date" o))); [|discriminate].
  destruct (set_of (cast_path castString (get "status" o))); [|discriminate].
  destruct (set_of (cast_path castNumber (get "__v" o))); [|discriminate].
  now intros [= <-].
Qed.

(** ** Updating *)

(** The conditional update never changes a version: the filter asks for the
    version the update object then writes. *)
Lemma apply_changes_same_version (o : obj) (ch : changes) (i : N) (v : Z) (d : doc) :
  castUpdate o = Some ch -> cast_path castNumber (get "__v" o) = Held v ->
  has_id_and_version i v d = true ->
  __v (apply_changes ch d) = __v d.
Proof.
  intros Hch Hv Hm. apply castUpdate_version in Hch. rewrite Hv in Hch.
  simpl in Hch. injection Hch as Hch. simpl. rewrite <- Hch. simpl.
  unfold has_id_and_version in Hm. apply andb_prop in Hm. destruct Hm as [_ Hm].
  apply Z.eqb_eq in Hm. now symmetry.
Qed.

Lemma put_keeps_versions (req : request) (faults : list bool) (st : db) :
  map __v (docs (db_of (run_new (app_put_events_id req) faults st)))
  = map __v (docs st).
Proof.
  unfold run_new, app_put_events_id, route.
  destruct (validateRequest updateEventValidationSchema req); [reflexivity|].
  unfold put_events_id, db_of. simpl.
  destruct (castObjectId (params_id req)) as [i|]; [|reflexivity].
  destruct (cast_path castNumber (get "__v" (body req))) as [|v|] eqn:Ev.
  - destruct (castUpdate (body req)); [|reflexivity].
    destruct (hd false faults); reflexivity.
  - destruct (castUpdate (body req)) as [ch|] eqn:Ech; [|reflexivity].
    destruct (hd false faults); [reflexivity|].
    pose proof (update_first_map __v (has_id_and_version i v) (apply_changes ch)
                  (docs st)) as Hmap.
    destruct (update_first (has_id_and_version i v) (apply_changes ch) (docs st))
      as [[d|] l]; simpl in *; apply Hmap; intros x Hx;
      now apply (apply_changes_same_version (body req) ch i v x).
  - reflexivity.
Qed.

Lemma put_run (req : request) (st : db) (i : N) (ch : changes) (v : Z) :
  validate updateEventValidationSchema (body req) false = [] ->
  castObjectId (params_id req) = Some i ->
  castUpdate (body req) = Some ch ->
  set_v ch = Some v ->
  run_new (app_put_events_id req) [] st
  = (match fst (update_first (has_id_and_version i v) (apply_changes ch) (docs st)) with
     | None =>
         Response 409
           (Message "Event has been updated by another user. Please refresh.")
     | Some d => Response 200 (EventBody (visible false d))
     end,
     with_docs st
       (snd (update_first (has_id_and_version i v) (apply_changes ch) (docs st))),
     [Called (Event_findOneAndUpdate (params_id req) (get "__v" (body req))
                (body req))]).
Proof.
  intros Hvalid Hid Hch Hv.
  unfold run_new, app_put_events_id. rewrite route_passed.
  2:{ unfold validateRequest. now rewrite Hvalid. }
  pose proof (castUpdate_version _ _ Hch) as Hset. rewrite Hv in Hset.
  unfold put_events_id. simpl. rewrite Hid, Hch.
  destruct (cast_path castNumber (get "__v" (body req))) as [|v'|]; simpl in Hset;
    try discriminate.
  injection Hset as ->.
  destruct (update_first (has_id_and_version i v) (apply_changes ch) (docs st))
    as [[d|] l]; reflexivity.
Qed.

(** The conditional update finds nothing to update when no stored event has
    both the id and the version of the request. *)
Lemma put_mismatch (req : request) (st : db) (i : N) (ch : changes) :
  validate updateEventValidationSchema (body req) false = [] ->
  castObjectId (params_id req) = Some i ->
  castUpdate (body req) = Some ch ->
  (forall d, In d (docs st) -> _id d = i -> set_v ch <> Some (__v d)) ->
  run_new (app_put_events_id req) [] st
  = (Response 409
       (Message "Event has been updated by another user. Please refresh."),
     st,
     [Called (Event_findOneAndUpdate (params_id req) (get "__v" (body req))
                (body req))]).
Proof.
  intros Hvalid Hid Hch Hstale.
  destruct (valid_update_has_version _ Hvalid) as [v0 [Hget Hnull]].
  pose proof (castUpdate_version _ _ Hch) as Hset.
  rewrite Hget in Hset.
  assert (Hv : exists v, set_v ch = Some v).
  { unfold cast_path in Hset. destruct v0; try congruence;
      destruct (castNumber _); simpl in Hset; try discriminate;
      injection Hset as <-; eauto. }
  destruct Hv as [v Hv].
  rewrite (put_run req st i ch v Hvalid Hid Hch Hv).
  rewrite update_first_absent.
  - simpl. now rewrite with_docs_same.
  - intros d Hd. unfold has_id_and_version, has_id.
    destruct (_id d =? i)%N eqn:Ei; [|reflexivity]. simpl.
    apply N.eqb_eq in Ei. apply Z.eqb_neq. intros Heq.
    apply (Hstale d Hd Ei). now rewrite Hv, Heq.
Qed.

(** C1, amended. For an update request that passes validation, whose id is a
    well-formed identifier and whose fields Mongoose can cast, on a healthy
    store: when no stored event has both the id and the version the body
    carries (the version is stale, or no event has the id), the database is
    left exactly as it was and the answer is 409 "Event has been updated by
    another user. Please refresh.".  A body that fails validation is
    answered 400, and a valid body with an id that is no well-formed
    identifier 500, in both cases with the database left as it was. *)
Theorem stale_update_is_409 (req : request) (st : db) :
  (validate updateEventValidationSchema (body req) false <> [] ->
   run_new (app_put_events_id req) [] st
   = (Response 400
        (ValidationError "Validation error"
           (map d_message
              (validate updateEventValidationSchema (body req) false))),
      st, []))
  /\ (validate updateEventValidationSchema (body req) false = [] ->
      castObjectId (params_id req) = None ->
      run_new (app_put_events_id req) [] st
      = (Response 500 (Message "Error updating event"), st,
         [Called (Event_findOneAndUpdate (params_id req) (get "__v" (body req))
                    (body req))]))
  /\ (forall (i : N) (ch : changes),
        validate updateEventValidationSchema (body req) false = [] ->
        castObjectId (params_id req) = Some i ->
        castUpdate (body req) = Some ch ->
        (forall d, In d (docs st) -> _id d = i -> set_v ch <> Some (__v d)) ->
        run_new (app_put_events_id req) [] st
        = (Response 409
             (Message "Event has been updated by another user. Please refresh."),
           st,
           [Called (Event_findOneAndUpdate (params_id req)
                      (get "__v" (body req)) (body req))])
        /\ docs (db_of (run_new (app_put_events_id req) [] st)) = docs st).
Proof.
  split; [|split].
  - intros Hinvalid. unfold run_new, app_put_events_id. apply route_answered.
    unfold validateRequest.
    destruct (validate updateEventValidationSchema (body req) false);
      [contradiction | reflexivity].
  - intros Hvalid Hid. unfold run_new, app_put_events_id.
    rewrite route_passed by (unfold validateRequest; now rewrite Hvalid).
    unfold put_events_id. simpl. now rewrite Hid.
  - intros i ch Hvalid Hid Hch Hstale.
    pose proof (put_mismatch req st i ch Hvalid Hid Hch Hstale) as E.
    split; [exact E|]. now rewrite E.
Qed.

(** ** Creating *)

Lemma string_key_valid (k : key_schema) (o : obj) :
  k_type k = JString -> k_valid k = None -> field_violations k o = [] ->
  (get (k_name k) o = None /\ k_required k = false)
  \/ exists s, get (k_name k) o = Some (VStr s) /\ s <> "" /\ string_rules k s = [].
Proof.
  intros Ht Hv. unfold field_violations, validate_key, first_error, base_and_rules.
  rewrite Ht, Hv.
  destruct (get (k_name k) o) as [v|].
  - destruct v; try discriminate.
    destruct (String.eqb s "") eqn:E; [discriminate|].
    intros H. right. exists s. repeat split; auto.
    now apply String.eqb_neq.
  - destruct (k_required k); [discriminate|]. now left.
Qed.

Lemma enum_key_valid (k : key_schema) (vs : list string) (o : obj) :
  k_valid k = Some vs -> field_violations k o = [] ->
  (get (k_name k) o = None /\ k_required k = false)
  \/ exists s, get (k_name k) o = Some (VStr s) /\ mem_string s vs = true.
Proof.
  intros Hv. unfold field_violations, validate_key, first_error. rewrite Hv.
  destruct (get (k_name k) o) as [v|].
  - destruct (is_allowed vs v) eqn:E; [|discriminate].
    intros _. right. destruct v; try discriminate. now exists s.
  - destruct (k_required k); [discriminate|]. now left.
Qed.

Lemma new_Event_id (o : obj) (id : N) (d : doc) :
  new_Event o id = Some d -> _id d = id /\ __v d = 0.
Proof.
  unfold new_Event.
  destruct (cast_path castString (get "title" o)); try discriminate.
  destruct (cast_path castString (get "location" o)); try discriminate.
  destruct (cast_date_path (get "date" o)); try discriminate.
  destruct (required_string t && required_string t0); try discriminate.
  destruct (description_path _); try discriminate.
  destruct (status_path _); try discriminate.
  now intros [= <-].
Qed.

(** A body the create schema accepts, with a date Mongoose can cast, makes a
    document that passes the validation [save] runs. *)
Lemma valid_event_is_saved (o : obj) (t : Z) (id : N) :
  validate eventValidationSchema o false = [] ->
  cast_date_path (get "date" o) = Held t ->
  exists d, new_Event o id = Some d.
Proof.
  intros Hvalid Hdate.
  pose proof (fun k => valid_field eventValidationSchema o k Hvalid) as F.
  unfold new_Event. rewrite Hdate.
  destruct (string_key_valid
              (mkKey "title" JString true None None None
                 [(string_empty, "Title is required")]) o eq_refl eq_refl)
    as [[_ ?]|[ti [Hti [Hti' _]]]]; [apply F; simpl; tauto | discriminate |].
  destruct (string_key_valid
              (mkKey "location" JString true None None None
                 [(string_empty, "Location is required")]) o eq_refl eq_refl)
    as [[_ ?]|[lo [Hlo [Hlo' _]]]]; [apply F; simpl; tauto | discriminate |].
  simpl in Hti, Hlo. rewrite Hti, Hlo. simpl.
  unfold required_string.
  apply String.eqb_neq in Hti', Hlo'. rewrite Hti', Hlo'. simpl.
  assert (Hd : exists x,
             description_path (cast_path castString (get "description" o)) = Some x).
  { destruct (string_key_valid
                (mkKey "description" JString false None None (Some 500%nat)
                   [(string_max, "Description cannot exceed 500 characters")])
                o eq_refl eq_refl)
      as [[Hn _]|[de [Hde [_ Hlen]]]]; [apply F; simpl; tauto | |];
      simpl in *.
    - rewrite Hn. simpl. eauto.
    - rewrite Hde. simpl. unfold string_rules in Hlen. simpl in Hlen.
      destruct (500 <? js_length de)%nat eqn:E; [discriminate|].
      apply Nat.ltb_ge in E. apply Nat.leb_le in E. rewrite E. eauto. }
  assert (Hs : exists x,
             status_path (cast_path castString (get "status" o)) = Some x).
  { destruct (enum_key_valid
                (mkKey "status" JString false (Some statuses) None None [])
                statuses o eq_refl)
      as [[Hn _]|[s0 [Hs0 Hmem]]]; [apply F; simpl; tauto | |]; simpl in *.
    - rewrite Hn. simpl. eauto.
    - rewrite Hs0. simpl. rewrite Hmem. eauto. }
  destruct Hd as [x Hx], Hs as [y Hy]. rewrite Hx, Hy. eauto.
Qed.

(** ** Identifiers *)

Lemma Forall_update_first (P : doc -> Prop) (m : doc -> bool) (f : doc -> doc)
    (l : list doc) :
  (forall d, P d -> P (f d)) -> Forall P l -> Forall P (snd (update_first m f l)).
Proof.
  intros Hf. induction 1 as [|x l Hx Hl IH]; simpl; [constructor|].
  destruct (m x); simpl.
  - constructor; auto.
  - destruct (update_first m f l); simpl in *. constructor; auto.
Qed.

Lemma Forall_remove_first (P : doc -> Prop) (m : doc -> bool) (l : list doc) :
  Forall P l -> Forall P (snd (remove_first m l)).
Proof.
  induction 1 as [|x l Hx Hl IH]; simpl; [constructor|].
  destruct (m x); simpl; [exact Hl|].
  destruct (remove_first m l); simpl in *. constructor; auto.
Qed.

Lemma Forall_below_succ (n : N) (l : list doc) :
  Forall (fun d => (_id d < n)%N) l -> Forall (fun d => (_id d < N.succ n)%N) l.
Proof. apply Forall_impl. intros d H. lia. Qed.

Ltac ids_done :=
  split;
  [ split; simpl in *;
    try match goal with E : transaction _ = _ |- _ => rewrite E end; auto
  | simpl; lia ].

(** Every repository call keeps the generator ahead of the stored
    identifiers, and never turns it back. *)
Lemma mongoose_ids_below {T : Type} (select_v : bool) (c : call T) (fault : bool)
    (st : db) :
  ids_below st ->
  ids_below (snd (mongoose select_v c fault st))
  /\ (next_id st <= next_id (snd (mongoose select_v c fault st)))%N.
Proof.
  intros [Hdocs Htx].
  assert (Hsucc : ids_below (mkDb (docs st) (N.succ (next_id st)) (transaction st))).
  { split; simpl; [now apply Forall_below_succ|].
    destruct (transaction st); [now apply Forall_below_succ | exact I]. }
  destruct c; simpl.
  - destruct (new_Event fields (next_id st)) as [d|] eqn:E; simpl.
    + destruct fault; simpl; [split; [exact Hsucc | lia]|].
      split; [|lia]. destruct Hsucc as [H1 H2]. split; simpl in *; [|exact H2].
      apply Forall_app. split; [exact H1|]. constructor; [|constructor].
      apply new_Event_id in E. destruct E as [-> _]. lia.
    + split; [exact Hsucc | lia].
  - destruct (castFilter q); [destruct fault|]; simpl; ids_done.
  - destruct (castObjectId id) as [i|]; [|simpl; ids_done].
    destruct (cast_path castNumber version) as [|v|];
      (destruct (castUpdate update) as [ch|]; [|simpl; ids_done]);
      try (simpl; ids_done);
      (destruct fault; [simpl; ids_done|]).
    + simpl; ids_done.
    + pose proof (Forall_update_first (fun d => (_id d < next_id st)%N)
                    (has_id_and_version i v) (apply_changes ch) (docs st)
                    (fun d H => H) Hdocs) as HF.
      destruct (update_first (has_id_and_version i v) (apply_changes ch) (docs st));
        simpl in *. ids_done.
  - destruct (castObjectId id) as [i|]; [|simpl; ids_done].
    destruct fault; [simpl; ids_done|].
    pose proof (Forall_remove_first (fun d => (_id d < next_id st)%N)
                  (has_id i) (docs st) Hdocs) as HF.
    destruct (remove_first (has_id i) (docs st)); simpl in *.
    ids_done.
  - destruct (castObjectId id) as [i|]; [|simpl; ids_done].
    destruct (castUpdate update) as [ch|]; [|simpl; ids_done].
    destruct fault; [simpl; ids_done|].
    pose proof (Forall_update_first (fun d => (_id d < next_id st)%N)
                  (has_id i) (apply_changes ch) (docs st)
                  (fun d H => H) Hdocs) as HF.
    destruct (update_first (has_id i) (apply_changes ch) (docs st));
      simpl in *. ids_done.
  - destruct fault; simpl; ids_done.
  - destruct (transaction st) eqn:Et; simpl; ids_done.
  - destruct (transaction st) eqn:Et; [destruct fault|]; simpl; ids_done.
  - destruct (transaction st) eqn:Et; simpl; ids_done.
  - destruct (transaction st) eqn:Et; simpl; ids_done.
Qed.

Lemma exec_ids_below {A : Type} (select_v : bool) (p : prog A) :
  forall (faults : list bool) (st : db),
    ids_below st ->
    ids_below (snd (fst (exec select_v p faults st)))
    /\ (next_id st <= next_id (snd (fst (exec select_v p faults st))))%N.
Proof.
  induction p as [a|T c k IH]; intros faults st Hst; simpl.
  - split; [exact Hst | lia].
  - pose proof (mongoose_ids_below select_v c (hd false faults) st Hst) as [H1 H2].
    destruct (mongoose select_v c (hd false faults) st) as [r st'].
    simpl in H1, H2.
    specialize (IH r (tl faults) st' H1). destruct IH as [H3 H4].
    destruct (exec select_v (k r) (tl faults) st') as [[a st''] trace].
    simpl in *. split; [exact H3 | lia].
Qed.

Lemma run_ids_below (h : http) (faults : list bool) (st : db) :
  ids_below st ->
  ids_below (db_of (run_new (app h) faults st))
  /\ (next_id st <= next_id (db_of (run_new (app h) faults st)))%N.
Proof. apply exec_ids_below. Qed.

(** Only a create announces an identifier, and it is the one the generator
    held when the request arrived. *)
Lemma run_created (h : http) (faults : list bool) (st : db) (i : N) :
  created_id (response_of (run_new (app h) faults st)) = Some i ->
  i = next_id st /\ (next_id st < next_id (db_of (run_new (app h) faults st)))%N.
Proof.
  unfold run_new, response_of, db_of.
  destruct h; simpl;
    unfold app_post_events, app_get_events, app_put_events_id,
      app_delete_events_id, route, validateRequest, validateQuery.
  - destruct (validate eventValidationSchema (body req) false); [|discriminate].
    simpl. destruct (new_Event (body req) (next_id st)) as [d|] eqn:E;
      [|discriminate].
    destruct (hd false faults); [discriminate|]. simpl.
    intros [= <-]. apply new_Event_id in E. destruct E as [-> _]. split; lia.
  - destruct (validate queryValidationSchema (query req) false); [|discriminate].
    simpl. destruct (castFilter _); [destruct (hd false faults)|]; discriminate.
  - destruct (validate updateEventValidationSchema (body req) false); [|discriminate].
    simpl. destruct (castObjectId (params_id req)); [|discriminate].
    destruct (cast_path castNumber (get "__v" (body req)));
      destruct (castUpdate (body req)); try discriminate;
      destruct (hd false faults); try discriminate.
    destruct (update_first _ _ _) as [[d|] l]; discriminate.
  - simpl. destruct (castObjectId (params_id req)); [|discriminate].
    destruct (hd false faults); [discriminate|].
    destruct (remove_first _ _) as [[d|] l]; discriminate.
Qed.

Lemma serve_ids_below (script : list (http * list bool)) :
  forall (st : db),
    ids_below st ->
    ids_below (snd (serve script st))
    /\ (next_id st <= next_id (snd (serve script st)))%N
    /\ Forall (fun i => (next_id st <= i < next_id (snd (serve script st)))%N)
         (created_ids (fst (serve script st))).
Proof.
  induction script as [|[h faults] rest IH]; intros st Hst; simpl.
  - repeat split; [apply Hst | apply Hst | lia | constructor].
  - destruct (run_ids_below h faults st Hst) as [H1 H2].
    specialize (IH _ H1). destruct IH as [H3 [H4 H5]].
    destruct (serve rest (db_of (run_new (app h) faults st))) as [rs st''] eqn:E.
    simpl in *. split; [exact H3|]. split; [lia|].
    assert (Hrest : Forall (fun i => (next_id st <= i < next_id st'')%N)
                      (created_ids rs)).
    { eapply Forall_impl; [|exact H5]. simpl. intros i Hi. lia. }
    destruct (created_id (response_of (run_new (app h) faults st))) as [i|] eqn:Ec;
      [|exact Hrest].
    constructor; [|exact Hrest].
    apply run_created in Ec. lia.
Qed.

Lemma description_path_valid (o : obj) (dd : option string) :
  field_violations description_key o = [] ->
  description_path (cast_path castString (get "description" o)) = Some dd ->
  dd = match get "description" o with Some (VStr s) => Some s | _ => None end.
Proof.
  intros Hv.
  destruct (string_key_valid description_key o eq_refl eq_refl Hv)
    as [[Hn _]|[de [Hde _]]]; simpl in *.
  - rewrite Hn. simpl. congruence.
  - rewrite Hde. simpl. destruct (js_length de <=? 500)%nat; congruence.
Qed.

Lemma status_path_valid (o : obj) (st : string) :
  field_violations status_key o = [] ->
  status_path (cast_path castString (get "status" o)) = Some st ->
  st = match get "status" o with Some (VStr s) => s | _ => "active" end.
Proof.
  intros Hv.
  destruct (enum_key_valid status_key statuses o eq_refl Hv)
    as [[Hn _]|[s0 [Hs0 Hmem]]]; simpl in *.
  - rewrite Hn. simpl. congruence.
  - rewrite Hs0. simpl. rewrite Hmem. congruence.
Qed.

(** The event [save] stores is the payload's: its title, location and date,
    its status or the default, its description if it has one. *)
Lemma saved_event_fields (o : obj) (id : N) (d : doc) (t : Z) :
  validate eventValidationSchema o false = [] ->
  cast_date_path (get "date" o) = Held t ->
  new_Event o id = Some d ->
  get "title" o = Some (VStr (title d))
  /\ get "location" o = Some (VStr (location d))
  /\ date d = t
  /\ status d = match get "status" o with Some (VStr s) => s | _ => "active" end
  /\ description d
     = match get "description" o with Some (VStr s) => Some s | _ => None end.
Proof.
  intros Hvalid Hdate Hnew.
  pose proof (fun k => valid_field eventValidationSchema o k Hvalid) as F.
  assert (Hd := description_path_valid o).
  assert (Hs := status_path_valid o).
  specialize (fun dd => Hd dd (F description_key ltac:(simpl; tauto))).
  specialize (fun st => Hs st (F status_key ltac:(simpl; tauto))).
  destruct (string_key_valid title_key o eq_refl eq_refl
              (F title_key ltac:(simpl; tauto)))
    as [[_ ?]|[ti [Hti _]]]; [discriminate|].
  destruct (string_key_valid location_key o eq_refl eq_refl
              (F location_key ltac:(simpl; tauto)))
    as [[_ ?]|[lo [Hlo _]]]; [discriminate|].
  simpl in Hti, Hlo. unfold new_Event in Hnew.
  rewrite Hdate, Hti, Hlo in Hnew. simpl in Hnew.
  destruct (required_string ti && required_string lo); [|discriminate].
  destruct (description_path _) as [dd|] eqn:Ed; [|discriminate].
  destruct (status_path _) as [st|] eqn:Es; [|discriminate].
  injection Hnew as <-. simpl. rewrite Hti, Hlo.
  repeat split; auto.
Qed.

(** C7, amended. For every create payload the create schema accepts and
    whose date Mongoose can cast, on a healthy store, the create route
    answers 201 with the event it stored: the event has the title, the
    location and the date of the payload, its status or "active", its
    description if it has one; its version is 0 and its id is fresh: no
    event in the database has it, and no earlier create of the service's
    history announced it.  When the store fails on the save, the answer is
    500 "Error saving event". *)
Theorem create_returns_fresh_event (script : list (http * list bool))
    (st0 : db) (req : request) (t : Z) :
  ids_below st0 ->
  validate eventValidationSchema (body req) false = [] ->
  cast_date_path (get "date" (body req)) = Held t ->
  let st := snd (serve script st0) in
  (exists d,
      run_new (app_post_events req) [] st
      = (Response 201 (EventBody (mkFound d (Some 0))),
         mkDb (docs st ++ [d]) (N.succ (next_id st)) (transaction st),
         [Called (Event_save (body req))])
      /\ __v d = 0
      /\ get "title" (body req) = Some (VStr (title d))
      /\ get "location" (body req) = Some (VStr (location d))
      /\ date d = t
      /\ status d
         = match get "status" (body req) with
           | Some (VStr s) => s
           | _ => "active"
           end
      /\ description d
         = match get "description" (body req) with
           | Some (VStr s) => Some s
           | _ => None
           end
      /\ ~ In (_id d) (map _id (docs st))
      /\ ~ In (_id d) (map _id (docs st0))
      /\ ~ In (_id d) (created_ids (fst (serve script st0))))
  /\ (forall faults,
        hd false faults = true ->
        response_of (run_new (app_post_events req) faults st)
        = Response 500 (Message "Error saving event")).
Proof.
  intros Hst0 Hvalid Hdate st.
  destruct (serve_ids_below script st0 Hst0) as [Hst [Hnext Hcreated]].
  fold st in Hst, Hnext, Hcreated.
  destruct (valid_event_is_saved (body req) t (next_id st) Hvalid Hdate) as [d Hd].
  pose proof (new_Event_id _ _ _ Hd) as [Hid Hv].
  destruct (saved_event_fields (body req) (next_id st) d t Hvalid Hdate Hd)
    as [Ft [Fl [Fd [Fs Fde]]]].
  assert (Hpass : validateRequest eventValidationSchema req = None)
    by (unfold validateRequest; now rewrite Hvalid).
  split.
  - exists d. split; [|split; [exact Hv|]].
    + unfold run_new, app_post_events. rewrite route_passed by exact Hpass.
      unfold post_events. simpl. rewrite Hd, Hv. reflexivity.
    + repeat (split; [assumption|]). rewrite Hid. repeat split.
      * intros Hin. apply in_map_iff in Hin. destruct Hin as [x [Hx Hin]].
        destruct Hst as [Hdocs _]. rewrite Forall_forall in Hdocs.
        specialize (Hdocs x Hin). lia.
      * intros Hin. apply in_map_iff in Hin. destruct Hin as [x [Hx Hin]].
        destruct Hst0 as [Hdocs _]. rewrite Forall_forall in Hdocs.
        specialize (Hdocs x Hin). lia.
      * intros Hin. rewrite Forall_forall in Hcreated.
        specialize (Hcreated _ Hin). lia.
  - intros faults Hfault.
    unfold run_new, app_post_events. rewrite route_passed by exact Hpass.
    unfold post_events, response_of. simpl. rewrite Hd, Hfault. reflexivity.
Qed.

(** ** Versions *)

Lemma Forall_versions (l : list doc) :
  Forall (fun d => __v d = 0) l <-> Forall (fun v => v = 0) (map __v l).
Proof. now rewrite Forall_map. Qed.

(** No route of [new.js] moves a version away from 0: a create stores 0 and
    nothing else writes a different version. *)
Lemma run_versions_zero (h : http) (faults : list bool) (st : db) :
  Forall (fun d => __v d = 0) (docs st) ->
  Forall (fun d => __v d = 0) (docs (db_of (run_new (app h) faults st))).
Proof.
  intros H. destruct h.
  - unfold run_new, db_of; simpl.
    unfold app_post_events, route, validateRequest.
    destruct (validate eventValidationSchema (body req) false); [|exact H].
    simpl. destruct (new_Event (body req) (next_id st)) as [d|] eqn:E; [|exact H].
    destruct (hd false faults); [exact H|]. simpl.
    apply Forall_app. split; [exact H|]. constructor; [|constructor].
    now apply new_Event_id in E.
  - unfold run_new, db_of; simpl.
    unfold app_get_events, route, validateQuery.
    destruct (validate queryValidationSchema (query req) false); [|exact H].
    simpl. destruct (castFilter _); [destruct (hd false faults)|]; exact H.
  - apply Forall_versions. simpl app.
    rewrite put_keeps_versions. now apply Forall_versions.
  - unfold run_new, db_of; simpl.
    destruct (castObjectId (params_id req)) as [i|]; [|exact H].
    destruct (hd false faults); [exact H|].
    pose proof (Forall_remove_first (fun d => __v d = 0) (has_id i) (docs st) H).
    destruct (remove_first (has_id i) (docs st)) as [[d|] l]; simpl in *;
      assumption.
Qed.

Lemma serve_versions_zero (script : list (http * list bool)) :
  forall st,
    Forall (fun d => __v d = 0) (docs st) ->
    Forall (fun d => __v d = 0) (docs (snd (serve script st))).
Proof.
  induction script as [|[h faults] rest IH]; intros st H; simpl; [exact H|].
  specialize (IH _ (run_versions_zero h faults st H)).
  destruct (serve rest (db_of (run_new (app h) faults st))). exact IH.
Qed.

(** ** Listing *)

(** The request without query parameters: the or-constraint of the query
    schema rejects it, so the answer is 400 and the stored events are not
    even read. *)
Lemma list_without_parameters_is_400 (id : string) (fields : obj)
    (faults : list bool) (st : db) :
  run_new (app_get_events (mkRequest id fields [])) faults st
  = (Response 400
       (ValidationError "Validation error"
          [d_message (missing_report ["location"; "date"; "status"])]),
     st, []).
Proof. reflexivity. Qed.

(** The part of the list route behind the validation: a query the schema
    accepts, whose date the Date constructor can read, is answered 200 with
    exactly the stored events that equal the query on every field it gives,
    in stored order. *)
Lemma list_with_filter_returns_matches (req : request) (faults : list bool)
    (st : db) :
  validate queryValidationSchema (query req) false = [] ->
  hd false faults = false ->
  (forall v, get "date" (query req) = Some v -> truthy v = true ->
             Date_of v <> None) ->
  exists c,
    response_of (run_new (app_get_events req) faults st)
    = Response 200 (EventList (map (visible false) (filter (matches c) (docs st))))
    /\ db_of (run_new (app_get_events req) faults st) = st
    /\ c_location c
       = match get "location" (query req) with
         | Some (VStr s) => Some s
         | _ => None
         end
    /\ c_date c
       = match get "date" (query req) with
         | Some v => if truthy v then Date_of v else None
         | None => None
         end
    /\ c_status c
       = match get "status" (query req) with
         | Some (VStr s) => Some s
         | _ => None
         end.
Proof.
  intros Hvalid Hok Hdate.
  pose proof (fun k => valid_field queryValidationSchema (query req) k Hvalid) as F.
  unfold run_new, app_get_events. rewrite route_passed
    by (unfold validateQuery; now rewrite Hvalid).
  unfold get_events, response_of, db_of. simpl. rewrite Hok.
  destruct (string_key_valid
              (mkKey "location" JString false None (Some 3%nat) (Some 50%nat) [])
              (query req) eq_refl eq_refl)
    as [[Hl _]|[lo [Hl [Hlo _]]]]; [apply F; simpl; tauto | |];
    simpl in Hl; rewrite Hl; simpl;
    try (apply String.eqb_neq in Hlo; rewrite Hlo; simpl);
    (destruct (enum_key_valid
                 (mkKey "status" JString false (Some statuses) None None [])
                 statuses (query req) eq_refl)
      as [[Hs _]|[s0 [Hs Hmem]]]; [apply F; simpl; tauto | |]);
    simpl in Hs; rewrite Hs; simpl;
    try (assert (Hs0 : String.eqb s0 "" = false)
           by (destruct s0; [discriminate | reflexivity]);
         rewrite Hs0; simpl);
    unfold castFilter; simpl;
    (destruct (get "date" (query req)) as [v|] eqn:Ev;
     [ destruct (truthy v) eqn:Et;
       [ destruct (Date_of v) as [t|] eqn:Ed;
         [| exfalso; now apply (Hdate v eq_refl Et) ] | ] | ]);
    simpl; eexists; (split; [reflexivity|]); simpl; repeat split; reflexivity.
Qed.

(** C4, amended. A list request with no query parameters is answered 400
    (at least one of location, date and status is required) and reads no
    stored event.  A list request whose query passes validation, with a date
    the Date constructor can read, is answered 200 on a healthy store with
    exactly the stored events that equal the query on every field it
    gives. *)
Theorem list_needs_and_applies_filter (req : request) (faults : list bool)
    (st : db) :
  (query req = [] ->
   run_new (app_get_events req) faults st
   = (Response 400
        (ValidationError "Validation error"
           [d_message (missing_report ["location"; "date"; "status"])]),
      st, []))
  /\ (validate queryValidationSchema (query req) false = [] ->
      hd false faults = false ->
      (forall v, get "date" (query req) = Some v -> truthy v = true ->
                 Date_of v <> None) ->
      exists c,
        response_of (run_new (app_get_events req) faults st)
        = Response 200
            (EventList (map (visible false) (filter (matches c) (docs st))))
        /\ db_of (run_new (app_get_events req) faults st) = st
        /\ c_location c
           = match get "location" (query req) with
             | Some (VStr s) => Some s
             | _ => None
             end
        /\ c_date c
           = match get "date" (query req) with
             | Some v => if truthy v then Date_of v else None
             | None => None
             end
        /\ c_status c
           = match get "status" (query req) with
             | Some (VStr s) => Some s
             | _ => None
             end).
Proof.
  split.
  - intros Hq. destruct req as [id fields q]. simpl in Hq. subst q.
    apply list_without_parameters_is_400.
  - apply list_with_filter_returns_matches.
Qed.

(** ** The update route of try.js *)



(** * Further properties of the routes *)

Lemma update_first_none (m : doc -> bool) (f : doc -> doc) (l : list doc) :
  fst (update_first m f l) = None -> snd (update_first m f l) = l.
Proof.
  induction l as [|x l IH]; simpl; [reflexivity|].
  destruct (m x); [discriminate|].
  destruct (update_first m f l) as [r rest]. simpl in *.
  intros H. now rewrite IH.
Qed.

Lemma remove_first_none (m : doc -> bool) (l : list doc) :
  fst (remove_first m l) = None -> snd (remove_first m l) = l.
Proof.
  induction l as [|x l IH]; simpl; [reflexivity|].
  destruct (m x); [discriminate|].
  destruct (remove_first m l) as [r rest]. simpl in *.
  intros H. now rewrite IH.
Qed.

(** Unfolds a route of [new.js] down to the calls of the model. *)
Ltac open_route :=
  unfold run_new, response_of, db_of, calls_of, app, middleware_of,
    app_post_events, app_get_events, app_put_events_id, app_delete_events_id,
    route, validateRequest, validateQuery,
    post_events, get_events, put_events_id, delete_events_id;
  simpl.

(** X1. Every request that reaches a route of [new.js], its body parsed by
    [express.json()], is answered by the route, and with one of the status
    codes the route's code sends: 201, 400 or 500 for a create, 200, 400 or
    500 for a list, 200, 400, 409 or 500 for an update, 200, 404 or 500 for
    a delete.  (What [express.json()] answers itself to a body it cannot
    parse comes before the routes and is not part of [http].) *)
Theorem new_routes_answer (h : http) (faults : list bool) (st : db) :
  exists c sent,
    response_of (run_new (app h) faults st) = Response c sent
    /\ In c (answers_of h).
Proof.
  destruct h; open_route.
  - destruct (validate eventValidationSchema (body req) false);
      [|simpl; eexists _, _; split; [reflexivity | simpl; tauto]].
    simpl. destruct (new_Event (body req) (next_id st));
      [destruct (hd false faults)|]; simpl;
      eexists _, _; (split; [reflexivity | simpl; tauto]).
  - destruct (validate queryValidationSchema (query req) false);
      [|simpl; eexists _, _; split; [reflexivity | simpl; tauto]].
    simpl. destruct (castFilter _); [destruct (hd false faults)|]; simpl;
      eexists _, _; (split; [reflexivity | simpl; tauto]).
  - destruct (validate updateEventValidationSchema (body req) false);
      [|simpl; eexists _, _; split; [reflexivity | simpl; tauto]].
    simpl. destruct (castObjectId (params_id req));
      [|simpl; eexists _, _; split; [reflexivity | simpl; tauto]].
    destruct (cast_path castNumber (get "__v" (body req)));
      destruct (castUpdate (body req));
      try (simpl; eexists _, _; split; [reflexivity | simpl; tauto]);
      (destruct (hd false faults);
       [simpl; eexists _, _; split; [reflexivity | simpl; tauto]|]).
    + simpl; eexists _, _; split; [reflexivity | simpl; tauto].
    + destruct (update_first _ _ _) as [[d|] l]; simpl;
        eexists _, _; (split; [reflexivity | simpl; tauto]).
  - destruct (castObjectId (params_id req));
      [|simpl; eexists _, _; split; [reflexivity | simpl; tauto]].
    destruct (hd false faults);
      [simpl; eexists _, _; split; [reflexivity | simpl; tauto]|].
    destruct (remove_first _ _) as [[d|] l]; simpl;
      eexists _, _; (split; [reflexivity | simpl; tauto]).
Qed.

(** X2. A request to [new.js] that is not answered 200 or 201 leaves the
    stored events exactly as they were, and a list request leaves the whole
    database as it was whatever its answer. *)
Theorem failure_keeps_documents (h : http) (faults : list bool) (st : db) :
  (succeeded (response_of (run_new (app h) faults st)) = false ->
   docs (db_of (run_new (app h) faults st)) = docs st)
  /\ (forall req, h = GET req -> db_of (run_new (app h) faults st) = st).
Proof.
  split.
  - destruct h; open_route.
    + destruct (validate eventValidationSchema (body req) false); [|reflexivity].
      simpl. destruct (new_Event (body req) (next_id st));
        [destruct (hd false faults)|]; simpl; try reflexivity. discriminate.
    + destruct (validate queryValidationSchema (query req) false); [|reflexivity].
      simpl. destruct (castFilter _); [destruct (hd false faults)|]; reflexivity.
    + destruct (validate updateEventValidationSchema (body req) false);
        [|reflexivity].
      simpl. destruct (castObjectId (params_id req)); [|reflexivity].
      destruct (cast_path castNumber (get "__v" (body req))) as [|v|];
        destruct (castUpdate (body req)) as [ch|]; try reflexivity;
        (destruct (hd false faults); [reflexivity|]); try reflexivity.
      pose proof (update_first_none (has_id_and_version n v) (apply_changes ch)
                    (docs st)) as Hnone.
      destruct (update_first _ _ _) as [[d|] l]; simpl in *; [discriminate|].
      intros _. now apply Hnone.
    + destruct (castObjectId (params_id req)); [|reflexivity].
      destruct (hd false faults); [reflexivity|].
      pose proof (remove_first_none (has_id n) (docs st)) as Hnone.
      destruct (remove_first _ _) as [[d|] l]; simpl in *; [discriminate|].
      intros _. now apply Hnone.
  - intros req ->. open_route.
    destruct (validate queryValidationSchema (query req) false); [|reflexivity].
    simpl. destruct (castFilter _); [destruct (hd false faults)|]; reflexivity.
Qed.

(** X3. When the server fails on the repository call of a request that
    passed validation, the route answers 500 with the message of its
    [catch] block, and the stored events are as they were. *)
Theorem storage_fault_is_500 (h : http) (faults : list bool) (st : db) :
  middleware_of h = None ->
  hd false faults = true ->
  response_of (run_new (app h) faults st)
  = Response 500 (Message (error_message h))
  /\ docs (db_of (run_new (app h) faults st)) = docs st.
Proof.
  intros Hpass Hfault. destruct h; revert Hpass; open_route.
  - destruct (validate eventValidationSchema (body req) false); [|discriminate].
    intros _. simpl. rewrite Hfault.
    destruct (new_Event (body req) (next_id st)); now split.
  - destruct (validate queryValidationSchema (query req) false); [|discriminate].
    intros _. simpl. rewrite Hfault. destruct (castFilter _); now split.
  - destruct (validate updateEventValidationSchema (body req) false);
      [|discriminate].
    intros _. simpl. rewrite Hfault.
    destruct (castObjectId (params_id req)); [|now split].
    destruct (cast_path castNumber (get "__v" (body req)));
      destruct (castUpdate (body req)); now split.
  - intros _. rewrite Hfault. destruct (castObjectId (params_id req)); now split.
Qed.

(** X4. Validation stands before the repository: a request the middleware
    answers makes no repository call and leaves the database untouched, and
    every other request to [new.js] makes exactly one call. *)
Theorem one_repository_call (h : http) (faults : list bool) (st : db) :
  match middleware_of h with
  | Some answered => run_new (app h) faults st = (answered, st, [])
  | None => List.length (calls_of (run_new (app h) faults st)) = 1%nat
  end.
Proof.
  destruct h; open_route.
  - destruct (validate eventValidationSchema (body req) false); [|reflexivity].
    simpl. destruct (new_Event (body req) (next_id st));
      [destruct (hd false faults)|]; reflexivity.
  - destruct (validate queryValidationSchema (query req) false); [|reflexivity].
    simpl. destruct (castFilter _); [destruct (hd false faults)|]; reflexivity.
  - destruct (validate updateEventValidationSchema (body req) false);
      [|reflexivity].
    simpl. destruct (castObjectId (params_id req)); [|reflexivity].
    destruct (cast_path castNumber (get "__v" (body req)));
      destruct (castUpdate (body req)); try reflexivity;
      (destruct (hd false faults); [reflexivity|]); try reflexivity.
    destruct (update_first _ _ _) as [[d|] l]; reflexivity.
  - destruct (castObjectId (params_id req)); [|reflexivity].
    destruct (hd false faults); [reflexivity|].
    destruct (remove_first _ _) as [[d|] l]; reflexivity.
Qed.

(** ** More about validation *)

Lemma get_in_keys (k : string) (o : obj) (v : value) :
  get k o = Some v -> In k (object_keys o).
Proof.
  induction o as [|[k' v'] o IH]; simpl; [discriminate|].
  destruct (String.eqb k k') eqn:E.
  - apply String.eqb_eq in E. subst. now left.
  - intros H. right. now apply IH.
Qed.

Lemma valid_keys_declared (S : object_schema) (o : obj) (name : string) :
  validate S o false = [] -> In name (object_keys o) -> declared S name = true.
Proof.
  rewrite validate_exhaustive. unfold violated_constraints.
  intros H Hin. apply app_eq_nil in H. destruct H as [_ H].
  apply app_eq_nil in H. destruct H as [H _].
  destruct (declared S name) eqn:E; [reflexivity|].
  assert (Hu : In name (undeclared_keys S o)).
  { unfold undeclared_keys. apply filter_In. split; [exact Hin|]. now rewrite E. }
  apply (in_map unknown_report) in Hu. rewrite H in Hu. destruct Hu.
Qed.

(** X5. No body passes both the create schema and the update schema: the
    second requires the key [__v] and the first does not declare it.  So no
    request is accepted by the update routes of both [new.js] and [try.js]:
    one of the two answers 400. *)
Theorem update_schemas_exclude (req : request) (faults faults' : list bool)
    (st st' : db) :
  ~ (validate eventValidationSchema (body req) false = []
     /\ validate updateEventValidationSchema (body req) false = [])
  /\ (status_of (response_of (run_new (app_put_events_id req) faults st))
      = Some 400
      \/ status_of (response_of (run_try (try_app_put_events_id req) faults' st'))
         = Some 400).
Proof.
  assert (Hex : ~ (validate eventValidationSchema (body req) false = []
                   /\ validate updateEventValidationSchema (body req) false = [])).
  { intros [Hc Hu].
    destruct (valid_update_has_version _ Hu) as [v [Hv _]].
    apply get_in_keys in Hv.
    pose proof (valid_keys_declared eventValidationSchema (body req) "__v" Hc Hv)
      as Hd.
    discriminate Hd. }
  split; [exact Hex|].
  unfold run_new, run_try, app_put_events_id, try_app_put_events_id, route,
    validateRequest, response_of.
  destruct (validate updateEventValidationSchema (body req) false) eqn:Eu;
    [|left; reflexivity].
  destruct (validate eventValidationSchema (body req) false) eqn:Ec;
    [|right; reflexivity].
  exfalso. apply Hex. now split.
Qed.

Lemma default_message_quoted (c : code) (label : string) (limit : nat)
    (names : list string) :
  exists rest, default_message c label limit names = String (ascii_of_nat 34) rest.
Proof. destruct c; simpl; eexists; reflexivity. Qed.

Lemma custom_message_in (c : code) (ms : list (code * string)) (m : string) :
  custom_message c ms = Some m -> In m (map snd ms).
Proof.
  induction ms as [|[c' m'] ms IH]; simpl; [discriminate|].
  destruct (code_eq_dec c c'); [intros [= ->]; now left | intros H; right; auto].
Qed.

(** A key's errors are built by [report]. *)
Lemma field_violation_is_report (k : key_schema) (item : option value) (e : detail) :
  In e (validate_key false k item) -> exists c n, e = report k c n.
Proof.
  assert (B : forall v, In e (base_and_rules k v) -> exists c n, e = report k c n).
  { intros v. unfold base_and_rules, string_rules.
    destruct (k_type k); destruct v; simpl;
      repeat match goal with
             | |- context [if ?b then _ else _] => destruct b; simpl
             | |- context [match ?x with Some _ => _ | None => _ end] =>
                 destruct x; simpl
             end;
      intros H;
      repeat match goal with
             | H : _ \/ _ |- _ => destruct H as [H|H]
             | H : False |- _ => destruct H
             | H : report _ _ _ = _ |- _ => eexists _, _; symmetry; exact H
             end. }
  unfold validate_key, first_error.
  destruct item as [v|].
  - destruct (k_valid k) as [vs|].
    + destruct (is_allowed vs v); [intros []|].
      intros [H|H]; [eexists _, _; symmetry; exact H | now apply (B v)].
    + apply B.
  - destruct (k_required k); [|intros []].
    intros [H|[]]. eexists _, _; symmetry; exact H.
Qed.

(** A message is one the schema gives with [.messages()], or a template of
    Joi's, which starts with the quoted label. *)
Lemma field_message (k : key_schema) (item : option value) (e : detail) :
  In e (validate_key false k item) ->
  In (d_message e) (map snd (k_messages k))
  \/ exists rest, d_message e = String (ascii_of_nat 34) rest.
Proof.
  intros H. apply field_violation_is_report in H. destruct H as [c [n ->]].
  unfold report. simpl.
  destruct (custom_message c (k_messages k)) eqn:E.
  - left. now apply custom_message_in with c.
  - right. apply default_message_quoted.
Qed.

(** X6. The message "Title is required" answers an empty title only.  A
    create body without a title is answered 400 with Joi's own message for a
    missing key, and "Title is required" is not among the details; a body
    whose title is the empty string is answered 400 with "Title is
    required". *)
Theorem missing_and_empty_title (req : request) :
  (get "title" (body req) = None ->
   exists details,
     validateRequest eventValidationSchema req
     = Some (Response 400 (ValidationError "Validation error" details))
     /\ In (default_message any_required "title" 0 []) details
     /\ ~ In "Title is required" details)
  /\ (get "title" (body req) = Some (VStr "") ->
      exists details,
        validateRequest eventValidationSchema req
        = Some (Response 400 (ValidationError "Validation error" details))
        /\ In "Title is required" details).
Proof.
  set (k := mkKey "title" JString true None None None
              [(string_empty, "Title is required")]).
  assert (Hk : In k (keys eventValidationSchema)) by (now left).
  split; intros Ht.
  - set (e := report k any_required 0).
    assert (He : In e (violated_constraints eventValidationSchema (body req))).
    { apply field_violations_reported with k; [exact Hk|].
      unfold field_violations, validate_key. simpl. rewrite Ht. now left. }
    eexists. split; [exact (middleware_rejects Body _ req e He)|]. split.
    + change (default_message any_required "title" 0 []) with (d_message e).
      now apply in_map.
    + simpl. intros Hin. apply in_map_iff in Hin. destruct Hin as [x [Hm Hx]].
      unfold violated_constraints in Hx.
      apply in_app_or in Hx. destruct Hx as [Hx|Hx].
      * apply in_flat_map in Hx. destruct Hx as [k' [Hk' Hx]].
        unfold field_violations in Hx. simpl in Hk'.
        destruct Hk' as [<-|[<-|[<-|[<-|[<-|[]]]]]];
          try (apply field_message in Hx; rewrite Hm in Hx; simpl in Hx;
               destruct Hx as [[Hx|[]]|[rest Hx]]; discriminate Hx).
        -- unfold validate_key in Hx. simpl in Hx. rewrite Ht in Hx.
           destruct Hx as [<-|[]]. discriminate Hm.
        -- apply field_message in Hx; rewrite Hm in Hx; simpl in Hx.
           destruct Hx as [[]|[rest Hx]]; discriminate Hx.
      * apply in_app_or in Hx. destruct Hx as [Hx|Hx];
          apply in_map_iff in Hx; destruct Hx as [y [<- _]]; discriminate Hm.
  - set (e := report k string_empty 0).
    assert (He : In e (violated_constraints eventValidationSchema (body req))).
    { apply field_violations_reported with k; [exact Hk|].
      unfold field_violations, validate_key. simpl. rewrite Ht. now left. }
    eexists. split; [exact (middleware_rejects Body _ req e He)|].
    change "Title is required" with (d_message e).
    now apply in_map.
Qed.

(** X7. The bounds of the location filter: a list request whose location is
    a string of length, as JavaScript counts it in UTF-16 code units, below
    3 or above 50 is answered 400 and reads no stored event. *)
Theorem location_filter_bounds (req : request) (s : string)
    (faults : list bool) (st : db) :
  get "location" (query req) = Some (VStr s) ->
  (js_length s < 3 \/ 50 < js_length s)%nat ->
  exists details,
    run_new (app_get_events req) faults st
    = (Response 400 (ValidationError "Validation error" details), st, []).
Proof.
  intros Hl Hlen.
  set (k := mkKey "location" JString false None (Some 3%nat) (Some 50%nat) []).
  assert (He : exists e, In e (field_violations k (query req))).
  { unfold field_violations, validate_key, first_error, base_and_rules,
      string_rules. simpl. rewrite Hl.
    destruct (String.eqb s ""); [eexists; now left|].
    destruct (js_length s <? 3)%nat eqn:E3; [eexists; now left|].
    destruct (50 <? js_length s)%nat eqn:E50; [eexists; now left|].
    apply Nat.ltb_ge in E3, E50. lia. }
  destruct He as [e He].
  eexists. unfold run_new, app_get_events. apply route_answered.
  apply (middleware_rejects Query queryValidationSchema req e).
  apply field_violations_reported with k; [now left | exact He].
Qed.

(** ** More about updating and deleting *)

Lemma filter_other_ids (i : N) (l : list doc) :
  (forall x, In x l -> has_id i x = false) ->
  filter (fun x => negb (has_id i x)) l = l.
Proof.
  induction l as [|x l IH]; intros H; simpl; [reflexivity|].
  rewrite (H x (or_introl eq_refl)). simpl.
  rewrite IH; [reflexivity|]. intros y Hy. apply H. now right.
Qed.

Lemma map_other_ids (i : N) (f : doc -> doc) (l : list doc) :
  (forall x, In x l -> has_id i x = false) ->
  map (fun x => if has_id i x then f x else x) l = l.
Proof.
  induction l as [|x l IH]; intros H; simpl; [reflexivity|].
  rewrite (H x (or_introl eq_refl)).
  rewrite IH; [reflexivity|]. intros y Hy. apply H. now right.
Qed.

(** Where identifiers are unique, the document with identifier [i] is the
    only one. *)
Lemma unique_id_tail (i : N) (x : doc) (l : list doc) :
  NoDup (map _id (x :: l)) -> has_id i x = true ->
  forall y, In y l -> has_id i y = false.
Proof.
  intros Hnd Hx y Hy. simpl in Hnd. inversion Hnd as [|? ? Hnotin _]; subst.
  unfold has_id in *. apply N.eqb_eq in Hx.
  destruct (_id y =? i)%N eqn:E; [|reflexivity].
  apply N.eqb_eq in E. exfalso. apply Hnotin. rewrite Hx, <- E. now apply in_map.
Qed.

Lemma remove_first_unique_id (i : N) (l : list doc) (d : doc) :
  NoDup (map _id l) -> In d l -> has_id i d = true ->
  remove_first (has_id i) l = (Some d, filter (fun x => negb (has_id i x)) l).
Proof.
  induction l as [|x l IH]; intros Hnd Hin Hd; [destruct Hin|].
  simpl. destruct (has_id i x) eqn:Ex; simpl.
  - pose proof (unique_id_tail i x l Hnd Ex) as Htail.
    destruct Hin as [->|Hin]; [|rewrite (Htail d Hin) in Hd; discriminate].
    now rewrite filter_other_ids.
  - destruct Hin as [->|Hin]; [congruence|].
    inversion Hnd; subst. now rewrite IH.
Qed.

Lemma update_first_unique_id (i : N) (m : doc -> bool) (f : doc -> doc)
    (l : list doc) (d : doc) :
  (forall x, m x = true -> has_id i x = true) ->
  NoDup (map _id l) -> In d l -> m d = true ->
  update_first m f l
  = (Some (f d), map (fun x => if has_id i x then f x else x) l).
Proof.
  intros Hm. induction l as [|x l IH]; intros Hnd Hin Hd; [destruct Hin|].
  simpl. destruct (m x) eqn:Ex.
  - pose proof (unique_id_tail i x l Hnd (Hm x Ex)) as Htail.
    destruct Hin as [->|Hin];
      [|pose proof (Htail d Hin); pose proof (Hm d Hd); congruence].
    rewrite (Hm d Ex). now rewrite map_other_ids.
  - destruct Hin as [->|Hin]; [congruence|].
    assert (Hx : has_id i x = false).
    { destruct (has_id i x) eqn:E; [|reflexivity].
      pose proof (unique_id_tail i x l Hnd E d Hin) as Hf.
      rewrite (Hm d Hd) in Hf. discriminate. }
    rewrite Hx. inversion Hnd; subst. now rewrite IH.
Qed.

Lemma castUpdate_fields (o : obj) (ch : changes) :
  castUpdate o = Some ch ->
  set_of (cast_path castString (get "title" o)) = Some (set_title ch)
  /\ set_of (cast_path castString (get "description" o)) = Some (set_description ch)
  /\ set_of (cast_path castString (get "location" o)) = Some (set_location ch)
  /\ set_of (cast_path castString (get "status" o)) = Some (set_status ch).
Proof.
  unfold castUpdate.
  destruct (set_of (cast_path castString (get "title" o))); [|discriminate].
  destruct (set_of (cast_path castString (get "description" o))); [|discriminate].
  destruct (set_of (cast_path castString (get "location" o))); [|discriminate].
  destruct (set_of (cast_date_path (get "date" o))); [|discriminate].
  destruct (set_of (cast_path castString (get "status" o))); [|discriminate].
  destruct (set_of (cast_path castNumber (get "__v" o))); [|discriminate].
  intros [= <-]. simpl. repeat split.
Qed.

Lemma update_title_key : In title_key (keys updateEventValidationSchema).
Proof. simpl. tauto. Qed.

Lemma update_location_key : In location_key (keys updateEventValidationSchema).
Proof. simpl. tauto. Qed.

Lemma update_description_key :
  In description_key (keys updateEventValidationSchema).
Proof. simpl. tauto. Qed.

Lemma update_status_key : In status_key (keys updateEventValidationSchema).
Proof. simpl. tauto. Qed.

(** What a valid update body writes: a non-empty title and location, and,
    where the body names them, a status of the three and a description of
    at most 500 characters. *)
Lemma valid_update_changes (o : obj) (ch : changes) :
  validate updateEventValidationSchema o false = [] ->
  castUpdate o = Some ch ->
  (exists t, get "title" o = Some (VStr t) /\ set_title ch = Some t /\ t <> "")
  /\ (exists l, get "location" o = Some (VStr l) /\ set_location ch = Some l
                /\ l <> "")
  /\ (get "status" o = None /\ set_status ch = None
      \/ exists s, get "status" o = Some (VStr s) /\ set_status ch = Some s
                   /\ mem_string s statuses = true)
  /\ (get "description" o = None /\ set_description ch = None
      \/ exists s, get "description" o = Some (VStr s)
                   /\ set_description ch = Some s
                   /\ (js_length s <= 500)%nat).
Proof.
  intros Hvalid Hch.
  pose proof (fun k => valid_field updateEventValidationSchema o k Hvalid) as F.
  destruct (castUpdate_fields o ch Hch) as [Ht [Hd [Hl Hs]]].
  repeat split.
  - destruct (string_key_valid title_key o eq_refl eq_refl (F _ update_title_key))
      as [[_ ?]|[t [Hget [Hne _]]]]; [discriminate|].
    simpl in Hget. rewrite Hget in Ht. simpl in Ht. injection Ht as Ht. eauto.
  - destruct (string_key_valid location_key o eq_refl eq_refl
                (F _ update_location_key))
      as [[_ ?]|[l [Hget [Hne _]]]]; [discriminate|].
    simpl in Hget. rewrite Hget in Hl. simpl in Hl. injection Hl as Hl. eauto.
  - destruct (enum_key_valid status_key statuses o eq_refl (F _ update_status_key))
      as [[Hget _]|[s [Hget Hmem]]]; simpl in Hget; rewrite Hget in Hs;
      simpl in Hs; injection Hs as Hs; [left | right]; eauto.
  - destruct (string_key_valid description_key o eq_refl eq_refl
                (F _ update_description_key))
      as [[Hget _]|[s [Hget [_ Hlen]]]]; simpl in Hget; rewrite Hget in Hd;
      simpl in Hd; injection Hd as Hd; [left; eauto | right].
    exists s. repeat split; auto.
    unfold string_rules in Hlen. simpl in Hlen.
    destruct (500 <? js_length s)%nat eqn:E; [discriminate|].
    now apply Nat.ltb_ge in E.
Qed.

(** X8. A successful update: for a valid body whose version is the stored
    one, the answer is 200 with the updated event; the event keeps its id
    and its version, takes the title and the location of the body, keeps its
    status and description where the body names none, and every other
    stored event is left as it is. *)
Theorem update_replaces_fields (req : request) (st : db) (i : N) (ch : changes)
    (d : doc) :
  validate updateEventValidationSchema (body req) false = [] ->
  castObjectId (params_id req) = Some i ->
  castUpdate (body req) = Some ch ->
  NoDup (map _id (docs st)) ->
  In d (docs st) -> _id d = i -> set_v ch = Some (__v d) ->
  run_new (app_put_events_id req) [] st
  = (Response 200 (EventBody (mkFound (apply_changes ch d) None)),
     with_docs st
       (map (fun x => if has_id i x then apply_changes ch x else x) (docs st)),
     [Called (Event_findOneAndUpdate (params_id req) (get "__v" (body req))
                (body req))])
  /\ _id (apply_changes ch d) = _id d
  /\ __v (apply_changes ch d) = __v d
  /\ get "title" (body req) = Some (VStr (title (apply_changes ch d)))
  /\ get "location" (body req) = Some (VStr (location (apply_changes ch d)))
  /\ (get "status" (body req) = None -> status (apply_changes ch d) = status d)
  /\ (get "description" (body req) = None ->
      description (apply_changes ch d) = description d).
Proof.
  intros Hvalid Hid Hch Hnd Hin Hi Hv.
  destruct (valid_update_changes _ _ Hvalid Hch)
    as [[t [Ht [Hst _]]] [[l [Hl [Hsl _]]] [Hs Hd]]].
  split.
  - rewrite (put_run req st i ch (__v d) Hvalid Hid Hch Hv).
    rewrite (update_first_unique_id i (has_id_and_version i (__v d))
               (apply_changes ch) (docs st) d); auto.
    + intros x Hx. unfold has_id_and_version in Hx.
      now apply andb_prop in Hx.
    + unfold has_id_and_version, has_id. rewrite Hi, N.eqb_refl, Z.eqb_refl.
      reflexivity.
  - simpl. rewrite Hv, Hst, Hsl. simpl. repeat split; auto.
    + intros Hnone. destruct Hs as [[_ ->]|[s [Hget _]]]; [reflexivity|congruence].
    + intros Hnone. destruct Hd as [[_ ->]|[s [Hget _]]]; [reflexivity|congruence].
Qed.

Lemma apply_changes_twice (ch : changes) (d : doc) :
  apply_changes ch (apply_changes ch d) = apply_changes ch d.
Proof.
  destruct ch as [[t|] [de|] [l|] [da|] [s|] [v|]]; reflexivity.
Qed.

Lemma update_first_again (m : doc -> bool) (f : doc -> doc) (l : list doc) :
  (forall x, m x = true -> m (f x) = true) ->
  (forall x, f (f x) = f x) ->
  forall y l', update_first m f l = (Some y, l') ->
               update_first m f l' = (Some y, l').
Proof.
  intros Hm Hf. induction l as [|x l IH]; intros y l' H; simpl in H;
    [discriminate|].
  destruct (m x) eqn:Ex.
  - injection H as <- <-. simpl. rewrite (Hm x Ex). now rewrite Hf.
  - destruct (update_first m f l) as [r rest] eqn:E.
    injection H as -> <-. simpl. rewrite Ex.
    now rewrite (IH y rest eq_refl).
Qed.

(** X9. A successful update does not use up the version it was sent with:
    the same request, sent again to the database the first run left, gets
    the same answer and leaves the same database. *)
Theorem update_can_be_replayed (req : request) (st : db) :
  status_of (response_of (run_new (app_put_events_id req) [] st)) = Some 200 ->
  run_new (app_put_events_id req) [] (db_of (run_new (app_put_events_id req) [] st))
  = run_new (app_put_events_id req) [] st.
Proof.
  unfold run_new, response_of, db_of, app_put_events_id, route, validateRequest,
    put_events_id.
  destruct (validate updateEventValidationSchema (body req) false);
    [|discriminate].
  simpl. destruct (castObjectId (params_id req)) as [i|]; [|discriminate].
  destruct (cast_path castNumber (get "__v" (body req))) as [|v|] eqn:Ev;
    destruct (castUpdate (body req)) as [ch|] eqn:Ech; try discriminate.
  simpl.
  destruct (update_first (has_id_and_version i v) (apply_changes ch) (docs st))
    as [[y|] l'] eqn:E; [|discriminate].
  intros _. simpl.
  rewrite (update_first_again (has_id_and_version i v) (apply_changes ch)
             (docs st)) with (y := y) (l' := l'); [reflexivity| | |exact E].
  - intros x Hx.
    pose proof (apply_changes_same_version (body req) ch i v x Ech Ev Hx) as Hsame.
    unfold has_id_and_version, has_id in *. now rewrite Hsame.
  - apply apply_changes_twice.
Qed.

(** X10. A successful delete removes the event with the given id and no
    other: where stored identifiers are unique, the stored events afterwards
    are the ones before without that event, in the same order. *)
Theorem delete_removes_one (req : request) (st : db) (i : N) (d : doc) :
  castObjectId (params_id req) = Some i ->
  NoDup (map _id (docs st)) ->
  In d (docs st) -> _id d = i ->
  run_new (app_delete_events_id req) [] st
  = (Response 200 (Message "Event deleted successfully"),
     with_docs st (filter (fun x => negb (has_id i x)) (docs st)),
     [Called (Event_findByIdAndDelete (params_id req))]).
Proof.
  intros Hid Hnd Hin Hi.
  rewrite (delete_run req [] st i Hid eq_refl).
  rewrite (remove_first_unique_id i (docs st) d Hnd Hin); [reflexivity|].
  unfold has_id. now apply N.eqb_eq.
Qed.

(** ** How the routes compose *)

Lemma post_run (req : request) (st : db) (d : doc) :
  validate eventValidationSchema (body req) false = [] ->
  new_Event (body req) (next_id st) = Some d ->
  run_new (app_post_events req) [] st
  = (Response 201 (EventBody (mkFound d (Some 0))),
     mkDb (docs st ++ [d]) (N.succ (next_id st)) (transaction st),
     [Called (Event_save (body req))]).
Proof.
  intros Hvalid Hd.
  unfold run_new, app_post_events. rewrite route_passed
    by (unfold validateRequest; now rewrite Hvalid).
  unfold post_events. simpl. rewrite Hd.
  destruct (new_Event_id _ _ _ Hd) as [_ ->]. reflexivity.
Qed.

Lemma new_Event_well_formed (o : obj) (id : N) (d : doc) :
  new_Event o id = Some d -> well_formed d.
Proof.
  unfold new_Event.
  destruct (cast_path castString (get "title" o)) as [|t|]; try discriminate.
  destruct (cast_path castString (get "location" o)) as [|l|]; try discriminate.
  destruct (cast_date_path (get "date" o)); try discriminate.
  destruct (required_string t) eqn:Et; [|discriminate].
  destruct (required_string l) eqn:El; [|discriminate]. simpl.
  destruct (description_path _) as [descr|] eqn:Ed; try discriminate.
  destruct (status_path _) as [s|] eqn:Es; try discriminate.
  intros [= <-]. unfold well_formed, required_string in *. simpl.
  apply negb_true_iff in Et, El. apply String.eqb_neq in Et, El.
  repeat split; auto.
  - unfold status_path in Es.
    destruct (cast_path castString (get "status" o)) as [|x|]; try discriminate.
    + now injection Es as <-.
    + destruct (mem_string x statuses) eqn:E; [|discriminate].
      now injection Es as <-.
  - unfold description_path in Ed.
    destruct (cast_path castString (get "description" o)) as [|x|];
      try discriminate.
    + now injection Ed as <-.
    + destruct (js_length x <=? 500)%nat eqn:E; [|discriminate].
      injection Ed as <-. now apply Nat.leb_le.
Qed.

Lemma remove_first_last (i : N) (l : list doc) (d : doc) :
  (forall x, In x l -> has_id i x = false) -> has_id i d = true ->
  remove_first (has_id i) (l ++ [d]) = (Some d, l).
Proof.
  intros Hl Hd. induction l as [|x l IH]; simpl.
  - now rewrite Hd.
  - rewrite (Hl x (or_introl eq_refl)).
    rewrite IH; [reflexivity|]. intros y Hy. apply Hl. now right.
Qed.

(** X11. Create, then delete what was created: for a valid create body and
    a delete whose id is the one the create assigned, the answers are 201
    and 200, and the stored events are again exactly the ones before the
    create. *)
Theorem create_then_delete_restores (req del : request) (st : db) (t : Z) :
  ids_below st ->
  validate eventValidationSchema (body req) false = [] ->
  cast_date_path (get "date" (body req)) = Held t ->
  castObjectId (params_id del) = Some (next_id st) ->
  exists d,
    _id d = next_id st
    /\ serve [(POST req, []); (DELETE del, [])] st
       = ([Response 201 (EventBody (mkFound d (Some 0)));
           Response 200 (Message "Event deleted successfully")],
          mkDb (docs st) (N.succ (next_id st)) (transaction st)).
Proof.
  intros Hst Hvalid Hdate Hid.
  destruct (valid_event_is_saved (body req) t (next_id st) Hvalid Hdate) as [d Hd].
  pose proof (new_Event_id _ _ _ Hd) as [Hi _].
  exists d. split; [exact Hi|].
  simpl. rewrite (post_run req st d Hvalid Hd).
  unfold db_of, response_of. simpl.
  rewrite (delete_run del [] _ (next_id st) Hid eq_refl). simpl.
  rewrite remove_first_last.
  - reflexivity.
  - intros x Hx. destruct Hst as [Hdocs _]. rewrite Forall_forall in Hdocs.
    specialize (Hdocs x Hx). unfold has_id. apply N.eqb_neq. lia.
  - unfold has_id. rewrite Hi. apply N.eqb_refl.
Qed.

Lemma status_query_valid (s : string) :
  mem_string s statuses = true ->
  validate queryValidationSchema [("status", VStr s)] false = [].
Proof.
  unfold mem_string, statuses. simpl. intros H.
  repeat (apply orb_prop in H; destruct H as [H|H]);
    try discriminate; apply String.eqb_eq in H; subst; reflexivity.
Qed.

(** X12. Create, then list: after a valid create, a list request that
    filters by the status of the created event is answered 200 with a list
    that holds the created event. *)
Theorem create_then_list_finds (req : request) (st : db) (t : Z)
    (id : string) (fields : obj) :
  validate eventValidationSchema (body req) false = [] ->
  cast_date_path (get "date" (body req)) = Held t ->
  exists d l,
    serve [(POST req, []);
           (GET (mkRequest id fields [("status", VStr (status d))]), [])] st
    = ([Response 201 (EventBody (mkFound d (Some 0))); Response 200 (EventList l)],
       mkDb (docs st ++ [d]) (N.succ (next_id st)) (transaction st))
    /\ In (mkFound d None) l.
Proof.
  intros Hvalid Hdate.
  destruct (valid_event_is_saved (body req) t (next_id st) Hvalid Hdate) as [d Hd].
  pose proof (new_Event_well_formed _ _ _ Hd) as [_ [_ [Hstatus _]]].
  set (st' := mkDb (docs st ++ [d]) (N.succ (next_id st)) (transaction st)).
  set (get_req := mkRequest id fields [("status", VStr (status d))]).
  destruct (list_with_filter_returns_matches get_req [] st')
    as [c [Hresp [Hdb [Hl [Hda Hs]]]]].
  { now apply status_query_valid. }
  { reflexivity. }
  { intros v Hv. discriminate Hv. }
  exists d, (map (visible false) (filter (matches c) (docs st'))). split.
  - unfold st', get_req in *.
    cbn [serve app]. rewrite (post_run req st d Hvalid Hd).
    unfold db_of, response_of in *. cbn [fst snd].
    now rewrite Hresp, Hdb.
  - change (mkFound d None) with (visible false d). apply in_map.
    apply filter_In. split.
    + simpl. apply in_or_app. right. now left.
    + destruct c as [cl cd cs]. simpl in Hl, Hda, Hs. subst.
      unfold matches. simpl. apply String.eqb_refl.
Qed.

(** ** Invariants of the stored events *)

Lemma NoDup_snoc (l : list N) (a : N) :
  NoDup l -> ~ In a l -> NoDup (l ++ [a]).
Proof.
  induction 1 as [|x l Hx Hl IH]; intros Ha; simpl.
  - constructor; [intros [] | constructor].
  - constructor.
    + intros Hin. apply in_app_or in Hin. destruct Hin as [Hin|[<-|[]]].
      * contradiction.
      * apply Ha. now left.
    + apply IH. intros Hin. apply Ha. now right.
Qed.

Lemma remove_first_ids (m : doc -> bool) (l : list doc) :
  incl (snd (remove_first m l)) l
  /\ (NoDup (map _id l) -> NoDup (map _id (snd (remove_first m l)))).
Proof.
  induction l as [|x l [IHi IHn]]; simpl.
  - split; [apply incl_refl | auto].
  - destruct (m x); simpl.
    + split; [apply incl_tl, incl_refl|]. intros H. now inversion H.
    + destruct (remove_first m l) as [r rest]. simpl in *. split.
      * intros y [<-|Hy]; [now left | right; now apply IHi].
      * intros H. inversion H as [|? ? Hnotin Hnd]; subst. constructor.
        -- intros Hin. apply Hnotin. apply in_map_iff in Hin.
           destruct Hin as [y [Hy Hin]]. rewrite <- Hy. apply in_map.
           now apply IHi.
        -- now apply IHn.
Qed.

Lemma run_ids_unique (h : http) (faults : list bool) (st : db) :
  ids_below st ->
  NoDup (map _id (docs st)) ->
  NoDup (map _id (docs (db_of (run_new (app h) faults st)))).
Proof.
  intros Hst Hnd. destruct h; open_route.
  - destruct (validate eventValidationSchema (body req) false); [|exact Hnd].
    simpl. destruct (new_Event (body req) (next_id st)) as [d|] eqn:E;
      [destruct (hd false faults)|]; simpl; try exact Hnd.
    rewrite map_app. simpl. apply NoDup_snoc; [exact Hnd|].
    apply new_Event_id in E. destruct E as [-> _].
    intros Hin. apply in_map_iff in Hin. destruct Hin as [x [Hx Hin]].
    destruct Hst as [Hdocs _]. rewrite Forall_forall in Hdocs.
    specialize (Hdocs x Hin). lia.
  - destruct (validate queryValidationSchema (query req) false); [|exact Hnd].
    simpl. destruct (castFilter _); [destruct (hd false faults)|]; exact Hnd.
  - destruct (validate updateEventValidationSchema (body req) false);
      [|exact Hnd].
    simpl. destruct (castObjectId (params_id req)) as [i|]; [|exact Hnd].
    destruct (cast_path castNumber (get "__v" (body req))) as [|v|];
      destruct (castUpdate (body req)) as [ch|]; try exact Hnd;
      (destruct (hd false faults); [exact Hnd|]); try exact Hnd.
    pose proof (update_first_map _id (has_id_and_version i v) (apply_changes ch)
                  (docs st) (fun d _ => eq_refl)) as Hmap.
    destruct (update_first _ _ _) as [[d|] l]; simpl in *; now rewrite Hmap.
  - destruct (castObjectId (params_id req)) as [i|]; [|exact Hnd].
    destruct (hd false faults); [exact Hnd|].
    pose proof (proj2 (remove_first_ids (has_id i) (docs st)) Hnd) as Hrem.
    destruct (remove_first _ _) as [[d|] l]; simpl in *; exact Hrem.
Qed.

(** X13. Identifiers stay unique: from a database whose identifiers are
    distinct and behind the generator, every sequence of requests to
    [new.js], whatever faults the server shows, leaves a database whose
    stored events have pairwise distinct ids. *)
Theorem ids_stay_unique (script : list (http * list bool)) :
  forall st,
    ids_below st ->
    NoDup (map _id (docs st)) ->
    NoDup (map _id (docs (snd (serve script st)))).
Proof.
  induction script as [|[h faults] rest IH]; intros st Hst Hnd; simpl;
    [exact Hnd|].
  pose proof (run_ids_unique h faults st Hst Hnd) as Hnd'.
  destruct (run_ids_below h faults st Hst) as [Hst' _].
  specialize (IH _ Hst' Hnd').
  destruct (serve rest (db_of (run_new (app h) faults st))). exact IH.
Qed.

Lemma valid_update_keeps_well_formed (o : obj) (ch : changes) (d : doc) :
  validate updateEventValidationSchema o false = [] ->
  castUpdate o = Some ch ->
  well_formed d -> well_formed (apply_changes ch d).
Proof.
  intros Hvalid Hch [Ht [Hl [Hs Hd]]].
  destruct (valid_update_changes o ch Hvalid Hch)
    as [[t [_ [Hst Hne]]] [[l [_ [Hsl Hnl]]] [Hstat Hdesc]]].
  unfold well_formed. simpl. rewrite Hst, Hsl. simpl. repeat split; auto.
  - destruct Hstat as [[_ ->]|[s [_ [-> Hmem]]]]; simpl; auto.
  - destruct Hdesc as [[_ ->]|[s [_ [-> Hlen]]]]; simpl; auto.
Qed.

Lemma run_well_formed (h : http) (faults : list bool) (st : db) :
  Forall well_formed (docs st) ->
  Forall well_formed (docs (db_of (run_new (app h) faults st))).
Proof.
  intros H. destruct h; open_route.
  - destruct (validate eventValidationSchema (body req) false); [|exact H].
    simpl. destruct (new_Event (body req) (next_id st)) as [d|] eqn:E;
      [destruct (hd false faults)|]; simpl; try exact H.
    apply Forall_app. split; [exact H|]. constructor; [|constructor].
    now apply new_Event_well_formed in E.
  - destruct (validate queryValidationSchema (query req) false); [|exact H].
    simpl. destruct (castFilter _); [destruct (hd false faults)|]; exact H.
  - destruct (validate updateEventValidationSchema (body req) false) eqn:Ev;
      [|exact H].
    simpl. destruct (castObjectId (params_id req)) as [i|]; [|exact H].
    destruct (cast_path castNumber (get "__v" (body req))) as [|v|];
      destruct (castUpdate (body req)) as [ch|] eqn:Ech; try exact H;
      (destruct (hd false faults); [exact H|]); try exact H.
    pose proof (Forall_update_first well_formed (has_id_and_version i v)
                  (apply_changes ch) (docs st)
                  (fun d => valid_update_keeps_well_formed (body req) ch d Ev Ech)
                  H) as HF.
    destruct (update_first _ _ _) as [[d|] l]; simpl in *; exact HF.
  - destruct (castObjectId (params_id req)) as [i|]; [|exact H].
    destruct (hd false faults); [exact H|].
    pose proof (Forall_remove_first well_formed (has_id i) (docs st) H) as HF.
    destruct (remove_first _ _) as [[d|] l]; simpl in *; exact HF.
Qed.

(** X14. Stored events stay well formed: when every stored event has a
    non-empty title and location, a status among active, cancelled and done
    and a description of at most 500 characters, the same holds after every
    sequence of requests to [new.js].  Creates are checked by the model's
    schema; updates, whose validators are off, only by the validation
    middleware. *)
Theorem stored_events_stay_well_formed (script : list (http * list bool)) :
  forall st,
    Forall well_formed (docs st) ->
    Forall well_formed (docs (snd (serve script st))).
Proof.
  induction script as [|[h faults] rest IH]; intros st H; simpl; [exact H|].
  specialize (IH _ (run_well_formed h faults st H)).
  destruct (serve rest (db_of (run_new (app h) faults st))). exact IH.
Qed.

(** ** The transactions of try.js *)

Ltac open_try :=
  unfold run_try, response_of, db_of, calls_of, try_app, try_middleware_of,
    try_app_post_events, try_app_get_events, try_app_put_events_id,
    try_app_delete_events_id, route, validateRequest, validateQuery,
    try_post_events, get_events, try_put_events_id, try_delete_events_id,
    try_catch, try_put_catch;
  simpl.

(** Case analysis on the faults and on the results of the model. *)
Ltac step_try :=
  repeat match goal with
         | H : transaction ?st = None |- context [transaction ?st] =>
             rewrite H; simpl
         | |- context [if hd false ?f then _ else _] =>
             destruct (hd false f); simpl
         | |- context [match new_Event ?o ?i with _ => _ end] =>
             destruct (new_Event o i); simpl
         | |- context [match castObjectId ?i with _ => _ end] =>
             destruct (castObjectId i); simpl
         | |- context [match castUpdate ?o with _ => _ end] =>
             destruct (castUpdate o); simpl
         | |- context [match castFilter ?q with _ => _ end] =>
             destruct (castFilter q); simpl
         end.

Ltac finish_try :=
  split;
  [ auto
  | split;
    [ intros ? ? Hr Hs; try discriminate Hr;
      try (injection Hr as <- <-; simpl in Hs; discriminate Hs); auto
    | simpl; intros; try discriminate; auto ] ].

(** X15. The routes of [try.js] leave no transaction open, and an answer
    other than 200 or 201 means no write: started on a database without an
    open transaction, whatever faults the server shows, a request ends with
    no transaction open, and when it is answered with another status than
    200 or 201 the stored events are exactly as they were (the [catch] block
    aborts the transaction of a model call that failed).  When the commit
    itself fails, the abort of the [catch] block comes after a commit and is
    refused: wherever both were called, nothing is answered. *)
Theorem try_routes_roll_back (h : http) (faults : list bool) (st : db) :
  transaction st = None ->
  transaction (db_of (run_try (try_app h) faults st)) = None
  /\ (forall c sent,
        response_of (run_try (try_app h) faults st) = Response c sent ->
        succeeded (Response c sent) = false ->
        docs (db_of (run_try (try_app h) faults st)) = docs st)
  /\ (existsb is_commit (calls_of (run_try (try_app h) faults st)) = true ->
      existsb is_abort (calls_of (run_try (try_app h) faults st)) = true ->
      response_of (run_try (try_app h) faults st) = NoResponse).
Proof.
  intros Htx. destruct h; open_try.
  - destruct (validate eventValidationSchema (body req) false).
    2:{ simpl. finish_try. }
    simpl; step_try; finish_try.
  - destruct (validate queryValidationSchema (query req) false).
    2:{ simpl. finish_try. }
    simpl; step_try; finish_try.
  - destruct (validate eventValidationSchema (body req) false).
    2:{ simpl. finish_try. }
    simpl; step_try; try solve [finish_try];
      pose proof (update_first_none (has_id n) (apply_changes c) (docs st))
        as Hnone;
      destruct (update_first (has_id n) (apply_changes c) (docs st))
        as [[d|] l]; simpl in *; step_try; finish_try.
  - step_try; try solve [finish_try];
      pose proof (remove_first_none (has_id n) (docs st)) as Hnone;
      destruct (remove_first (has_id n) (docs st)) as [[d|] l]; simpl in *;
      step_try; finish_try.
Qed.

(** X16. [startSession] is awaited outside [try]: when it rejects, a
    create, update or delete route of [try.js] sends no answer at all, makes
    no further call and leaves the database as it was. *)
Theorem try_session_failure_unanswered (h : http) (faults : list bool) (st : db) :
  try_middleware_of h = None ->
  (forall req, h <> GET req) ->
  hd false faults = true ->
  run_try (try_app h) faults st = (NoResponse, st, [Called startSession]).
Proof.
  intros Hpass Hget Hfault. destruct h; revert Hpass; open_try.
  - destruct (validate eventValidationSchema (body req) false); [|discriminate].
    intros _. simpl. now rewrite Hfault.
  - exfalso. now apply (Hget req).
  - destruct (validate eventValidationSchema (body req) false); [|discriminate].
    intros _. simpl. now rewrite Hfault.
  - intros _. now rewrite Hfault.
Qed.

(** X17. Where the two files agree: on a healthy server and a database
    without an open transaction, the create and delete routes of [try.js]
    give the answer of the routes of [new.js] and leave the same database;
    the transaction changes the calls made, not the outcome. *)
Theorem try_create_delete_agree (h : http) (st : db) :
  transaction st = None ->
  (forall req, h <> GET req) -> (forall req, h <> PUT req) ->
  response_of (run_try (try_app h) [] st) = response_of (run_new (app h) [] st)
  /\ db_of (run_try (try_app h) [] st) = db_of (run_new (app h) [] st).
Proof.
  intros Htx Hget Hput. destruct h.
  - open_try. open_route.
    destruct (validate eventValidationSchema (body req) false);
      [|simpl; now split].
    simpl. rewrite Htx. simpl.
    destruct (new_Event (body req) (next_id st)); simpl; rewrite ?Htx;
      destruct st; simpl in *; subst; now split.
  - exfalso. now apply (Hget req).
  - exfalso. now apply (Hput req).
  - open_try. open_route. rewrite Htx. simpl.
    destruct (castObjectId (params_id req)) as [i|]; simpl;
      [|destruct st; simpl in *; subst; now split].
    destruct (remove_first (has_id i) (docs st)) as [[d|] l]; simpl;
      destruct st; simpl in *; subst; now split.
Qed.

(** X18. The bound of the description: for a create body whose description
    is a string, the details of the validation hold "Description cannot
    exceed 500 characters" exactly when the length of the description, as
    JavaScript counts it in UTF-16 code units, is above 500; a length of 500
    passes this check. *)
Theorem description_bound (o : obj) (s : string) :
  get "description" o = Some (VStr s) ->
  (In "Description cannot exceed 500 characters"
      (map d_message (validate eventValidationSchema o false))
   <-> (500 < js_length s)%nat).
Proof.
  intros Hd. rewrite validate_exhaustive. split.
  - intros Hin. apply in_map_iff in Hin. destruct Hin as [x [Hm Hx]].
    unfold violated_constraints in Hx.
    apply in_app_or in Hx. destruct Hx as [Hx|Hx].
    + apply in_flat_map in Hx. destruct Hx as [k' [Hk' Hx]].
      unfold field_violations in Hx. simpl in Hk'.
      destruct Hk' as [<-|[<-|[<-|[<-|[<-|[]]]]]];
        try (apply field_message in Hx; rewrite Hm in Hx; simpl in Hx;
             destruct Hx as [[Hx|[]]|[rest Hx]]; discriminate Hx).
      * unfold validate_key, first_error, base_and_rules, string_rules in Hx.
        simpl in Hx. rewrite Hd in Hx.
        destruct (String.eqb s "").
        -- destruct Hx as [<-|[]]. discriminate Hm.
        -- destruct (500 <? js_length s)%nat eqn:E; [|destruct Hx].
           now apply Nat.ltb_lt.
      * apply field_message in Hx; rewrite Hm in Hx; simpl in Hx.
        destruct Hx as [[]|[rest Hx]]; discriminate Hx.
    + apply in_app_or in Hx. destruct Hx as [Hx|Hx];
        apply in_map_iff in Hx; destruct Hx as [y [<- _]]; discriminate Hm.
  - intros Hlen.
    change "Description cannot exceed 500 characters"
      with (d_message (report description_key string_max 500)).
    apply in_map. apply field_violations_reported with description_key;
      [simpl; tauto|].
    unfold field_violations, validate_key, first_error, base_and_rules,
      string_rules. simpl. rewrite Hd.
    destruct (String.eqb s "") eqn:E.
    + apply String.eqb_eq in E. subst. simpl in Hlen. lia.
    + apply Nat.ltb_lt in Hlen. rewrite Hlen. now left.
Qed.

End Service.

Local Open Scope list_scope.

(** * The service on the sample data *)

(** C2, at the scenario of the specification: the event is created with
    version 0; the update that carries version 0 succeeds and leaves the
    stored version at 0, not 1; the same update, repeated with what should
    now be a stale version, succeeds again. *)
Theorem version_is_not_incremented :
  let post := POST (mkRequest "" create_fields []) in
  let put := PUT (mkRequest "000000000000000000000000" (update_fields 0) []) in
  let updated := mkDoc 0 "Updated" None "Hall" 1733961600000 "active" 0 in
  serve (js := sample_js) [(post, []); (put, []); (put, [])] empty_db
  = ([ Response 201
         (EventBody
            (mkFound (mkDoc 0 "Event 1" None "Hall" 1733961600000 "active" 0)
               (Some 0)));
       Response 200 (EventBody (mkFound updated None));
       Response 200 (EventBody (mkFound updated None)) ],
     mkDb [updated] 1 None).
Proof. vm_compute. reflexivity. Qed.

(** C1, as stated, fails at two requests about the stored sample event, each
    with a version (7) no stored event has.  With the id [mockId], which no
    event has and which is no well-formed identifier, the answer is 500;
    with the id of the stored event and a body that lacks the required
    fields, the answer is 400. *)
Lemma stale_update_not_always_409 :
  (version_mismatch (js := sample_js) sample_db
     (mkRequest "mockId" (update_fields 7) [])
   /\ run_new (js := sample_js)
        (app_put_events_id (js := sample_js)
           (mkRequest "mockId" (update_fields 7) []))
        [] sample_db
      = (Response 500 (Message "Error updating event"), sample_db,
         [Called (Event_findOneAndUpdate "mockId" (Some (VNum 7))
                    (update_fields 7))]))
  /\ (version_mismatch (js := sample_js) sample_db
        (mkRequest sample_id [("__v", VNum 7)] [])
      /\ run_new (js := sample_js)
           (app_put_events_id (js := sample_js)
              (mkRequest sample_id [("__v", VNum 7)] []))
           [] sample_db
         = (Response 400
              (ValidationError "Validation error"
                 [default_message any_required "title" 0 [];
                  default_message any_required "location" 0 [];
                  default_message any_required "date" 0 []]),
            sample_db, [])).
Proof.
  split; split.
  - exists (VNum 7). split; [reflexivity|]. intros d _ H. discriminate H.
  - vm_compute. reflexivity.
  - exists (VNum 7). split; [reflexivity|].
    intros d [<-|[]] _. simpl. discriminate.
  - vm_compute. reflexivity.
Qed.

Lemma stale_update_is_409_witness :
  validate (js := sample_js) updateEventValidationSchema (update_fields 7) false = []
  /\ castObjectId sample_id = Some sample_oid
  /\ run_new (js := sample_js)
       (app_put_events_id (js := sample_js)
          (mkRequest sample_id (update_fields 7) []))
       [] sample_db
     = (Response 409
          (Message "Event has been updated by another user. Please refresh."),
        sample_db,
        [Called (Event_findOneAndUpdate sample_id (Some (VNum 7))
                   (update_fields 7))]).
Proof.
  split; [reflexivity|]. split; [reflexivity|].
  apply (proj2 (proj2 (stale_update_is_409 (js := sample_js)
                         (mkRequest sample_id (update_fields 7) []) sample_db))
           sample_oid
           (mkChanges (Some "Updated") None (Some "Hall") (Some 1733961600000)
              None (Some 7))).
  - reflexivity.
  - reflexivity.
  - reflexivity.
  - intros d [<-|[]] _. simpl. discriminate.
Defined.


Lemma validation_reports_every_violation_witness :
  (2 <= List.length
          (violated_fields (js := sample_js) eventValidationSchema []))%nat
  /\ validateRequest (js := sample_js) eventValidationSchema (mkRequest "" [] [])
     = Some (Response 400
               (ValidationError "Validation error"
                  [default_message any_required "title" 0 [];
                   default_message any_required "location" 0 [];
                   default_message any_required "date" 0 []])).
Proof.
  assert (H : (2 <= List.length
                      (violated_fields (js := sample_js) eventValidationSchema
                         (payload_of Body (mkRequest "" [] []))))%nat)
    by (vm_compute; lia).
  split; [exact H|].
  destruct (validation_reports_every_violation (js := sample_js) Body
              eventValidationSchema (mkRequest "" [] []) H)
    as [details [Hresp [Hdetails _]]].
  simpl in Hresp. rewrite Hresp, Hdetails. reflexivity.
Defined.

Lemma create_returns_fresh_event_witness :
  ids_below empty_db
  /\ exists d,
       response_of
         (run_new (js := sample_js)
            (app_post_events (js := sample_js) (mkRequest "" create_fields []))
            []
            (snd (serve (js := sample_js)
                    [(POST (mkRequest "" create_fields []), [])] empty_db)))
       = Response 201 (EventBody (mkFound d (Some 0)))
       /\ _id d = 1%N.
Proof.
  assert (H : ids_below empty_db) by (split; [constructor | exact I]).
  split; [exact H|].
  destruct (create_returns_fresh_event (js := sample_js)
              [(POST (mkRequest "" create_fields []), [])] empty_db
              (mkRequest "" create_fields []) 1733961600000 H eq_refl eq_refl)
    as [[d [Hrun _]] _].
  exists d. rewrite Hrun. split; [reflexivity|].
  vm_compute in Hrun. now injection Hrun as <-.
Defined.

(** C8, as stated, fails at the id [mockId] on the empty database: no event
    has the id, and the answer is 500, not 404. *)
Lemma delete_unknown_id_not_always_404 :
  (forall d, In d (docs empty_db) -> castObjectId "mockId" <> Some (_id d))
  /\ run_new (js := sample_js) (app_delete_events_id (mkRequest "mockId" [] []))
       [] empty_db
     = (Response 500 (Message "Error deleting event"), empty_db,
        [Called (Event_findByIdAndDelete "mockId")]).
Proof.
  split; [intros d [] | vm_compute; reflexivity].
Qed.

Lemma delete_absent_id_is_404_witness :
  castObjectId sample_id = Some sample_oid
  /\ serve (js := sample_js) (repeat (DELETE (mkRequest sample_id [] []), []) 2)
       empty_db
     = (repeat (Response 404 (Message "Event not found")) 2, empty_db)
  /\ fst (serve (js := sample_js)
            (repeat (DELETE (mkRequest sample_id [] []), []) 2) sample_db)
     = [Response 200 (Message "Event deleted successfully");
        Response 404 (Message "Event not found")].
Proof.
  split; [reflexivity|]. split.
  - apply (proj1 (delete_absent_id_is_404 (js := sample_js)
                    (mkRequest sample_id [] []) sample_oid empty_db eq_refl)).
    intros d [].
  - apply (proj2 (delete_absent_id_is_404 (js := sample_js)
                    (mkRequest sample_id [] []) sample_oid sample_db eq_refl)).
    + simpl. constructor; [intros [] | constructor].
    + exists sample_doc. split; [now left | reflexivity].
Defined.

Lemma unknown_key_is_rejected_witness :
  In "owner" (object_keys (create_fields ++ [("owner", VStr "me")]))
  /\ response_of
       (run_new (js := sample_js)
          (app_post_events (js := sample_js)
             (mkRequest "" (create_fields ++ [("owner", VStr "me")]) []))
          [] sample_db)
     = Response 400
         (ValidationError "Validation error"
            [default_message object_unknown "owner" 0 []]).
Proof.
  assert (H : In "owner" (object_keys (create_fields ++ [("owner", VStr "me")])))
    by (simpl; tauto).
  split; [exact H|].
  destruct (proj1 (unknown_key_is_rejected (js := sample_js)
                     (mkRequest "" (create_fields ++ [("owner", VStr "me")]) [])
                     "owner" [] sample_db H))
    as [details [Hrun _]].
  - simpl. intros [E|[E|[E|[E|[E|[]]]]]]; discriminate E.
  - vm_compute in Hrun. injection Hrun as <-. vm_compute. reflexivity.
Defined.

Lemma malformed_id_delete_is_500_witness :
  castObjectId "mockId" = None
  /\ run_new (js := sample_js) (app_delete_events_id (mkRequest "mockId" [] []))
       [] sample_db
     = (Response 500 (Message "Error deleting event"), sample_db,
        [Called (Event_findByIdAndDelete "mockId")]).
Proof.
  split; [reflexivity|].
  apply (malformed_id_delete_is_500 (js := sample_js)
           (mkRequest "mockId" [] []) [] sample_db).
  reflexivity.
Defined.

(** C4, as stated, fails at the request without query parameters on the
    database that holds the sample event: the answer is 400 and carries no
    event. *)
Lemma list_without_parameters_not_200 :
  run_new (js := sample_js) (app_get_events (js := sample_js) (mkRequest "" [] []))
    [] sample_db
  = (Response 400
       (ValidationError "Validation error"
          [default_message object_missing "value" 0
             ["location"; "date"; "status"]]),
     sample_db, [])
  /\ response_of
       (run_new (js := sample_js)
          (app_get_events (js := sample_js) (mkRequest "" [] [])) [] sample_db)
     <> Response 200 (EventList (map (visible false) (docs sample_db))).
Proof.
  split; [vm_compute; reflexivity | vm_compute; discriminate].
Qed.

Lemma list_needs_and_applies_filter_witness :
  validate (js := sample_js) queryValidationSchema
    [("location", VStr "Hall"); ("date", VStr "2024-12-12")] false = []
  /\ response_of
       (run_new (js := sample_js)
          (app_get_events (js := sample_js)
             (mkRequest "" [] [("location", VStr "Hall"); ("date", VStr "2024-12-12")]))
          [] sample_db)
     = Response 200 (EventList [mkFound sample_doc None])
  /\ response_of
       (run_new (js := sample_js)
          (app_get_events (js := sample_js) (mkRequest "" [] [])) [] sample_db)
     = Response 400
         (ValidationError "Validation error"
            [default_message object_missing "value" 0
               ["location"; "date"; "status"]]).
Proof.
  split; [reflexivity|]. split.
  - destruct (proj2 (list_needs_and_applies_filter (js := sample_js)
                       (mkRequest "" []
                          [("location", VStr "Hall"); ("date", VStr "2024-12-12")])
                       [] sample_db) eq_refl eq_refl)
      as [c [Hresp [_ [Hl [Hd Hs]]]]].
    + intros v Hv _. vm_compute in Hv. injection Hv as <-. discriminate.
    + rewrite Hresp. destruct c as [l d s0]. simpl in Hl, Hd, Hs. subst.
      vm_compute. reflexivity.
  - rewrite (proj1 (list_needs_and_applies_filter (js := sample_js)
                      (mkRequest "" [] []) [] sample_db) eq_refl).
    reflexivity.
Defined.

Lemma list_query_needs_a_filter_witness :
  no_filter [] = true
  /\ no_filter [("status", VStr "done")] = false
  /\ response_of
       (run_new (js := sample_js)
          (app_get_events (js := sample_js) (mkRequest "" [] [])) [] sample_db)
     = Response 400
         (ValidationError "Validation error"
            [default_message object_missing "value" 0
               ["location"; "date"; "status"]])
  /\ validate (js := sample_js) queryValidationSchema
       [("status", VStr "done")] false = [].
Proof.
  split; [reflexivity|]. split; [reflexivity|]. split.
  - destruct (proj1 (list_query_needs_a_filter (js := sample_js)
                       (mkRequest "" [] []) [] sample_db) eq_refl) as [Hrun _].
    rewrite Hrun. reflexivity.
  - pose proof (proj2 (list_query_needs_a_filter (js := sample_js)
                         (mkRequest "" [] [("status", VStr "done")]) [] sample_db)
                  eq_refl) as H.
    reflexivity.
Defined.


(** * The further properties on the sample data *)

Lemma failure_keeps_documents_witness :
  succeeded
    (response_of
       (run_new (js := sample_js) (app (js := sample_js) (DELETE (mkRequest "mockId" [] [])))
          [] sample_db)) = false
  /\ docs
       (db_of
          (run_new (js := sample_js)
             (app (js := sample_js) (DELETE (mkRequest "mockId" [] []))) [] sample_db))
     = [sample_doc].
Proof.
  split; [reflexivity|].
  apply (proj1 (failure_keeps_documents (js := sample_js)
                  (DELETE (mkRequest "mockId" [] [])) [] sample_db)).
  reflexivity.
Defined.

Lemma storage_fault_is_500_witness :
  middleware_of (js := sample_js) (DELETE (mkRequest sample_id [] [])) = None
  /\ response_of
       (run_new (js := sample_js)
          (app (js := sample_js) (DELETE (mkRequest sample_id [] []))) [true]
          sample_db)
     = Response 500 (Message "Error deleting event").
Proof.
  split; [reflexivity|].
  apply (storage_fault_is_500 (js := sample_js)
           (DELETE (mkRequest sample_id [] [])) [true] sample_db);
    reflexivity.
Defined.

Lemma missing_and_empty_title_witness :
  get "title" [("location", VStr "Hall")] = None
  /\ get "title" [("title", VStr "")] = Some (VStr "")
  /\ (exists details,
        validateRequest (js := sample_js) eventValidationSchema
          (mkRequest "" [("location", VStr "Hall")] [])
        = Some (Response 400 (ValidationError "Validation error" details))
        /\ ~ In "Title is required" details)
  /\ (exists details,
        validateRequest (js := sample_js) eventValidationSchema
          (mkRequest "" [("title", VStr "")] [])
        = Some (Response 400 (ValidationError "Validation error" details))
        /\ In "Title is required" details).
Proof.
  split; [reflexivity|]. split; [reflexivity|]. split.
  - destruct (proj1 (missing_and_empty_title (js := sample_js)
                       (mkRequest "" [("location", VStr "Hall")] [])) eq_refl)
      as [details [H1 [_ H3]]].
    exists details. now split.
  - exact (proj2 (missing_and_empty_title (js := sample_js)
                    (mkRequest "" [("title", VStr "")] [])) eq_refl).
Defined.

Lemma location_filter_bounds_witness :
  get "location" [("location", VStr "ab")] = Some (VStr "ab")
  /\ exists details,
       run_new (js := sample_js)
         (app_get_events (js := sample_js)
            (mkRequest "" [] [("location", VStr "ab")])) [] sample_db
       = (Response 400 (ValidationError "Validation error" details), sample_db, []).
Proof.
  split; [reflexivity|].
  apply (location_filter_bounds (js := sample_js)
           (mkRequest "" [] [("location", VStr "ab")]) "ab" [] sample_db).
  - reflexivity.
  - left. simpl. lia.
Defined.

Lemma update_replaces_fields_witness :
  validate (js := sample_js) updateEventValidationSchema (update_fields 0) false = []
  /\ NoDup (map _id (docs sample_db))
  /\ response_of
       (run_new (js := sample_js)
          (app_put_events_id (js := sample_js)
             (mkRequest sample_id (update_fields 0) [])) [] sample_db)
     = Response 200
         (EventBody
            (mkFound
               (mkDoc sample_oid "Updated" None "Hall" 1733961600000 "active" 0)
               None)).
Proof.
  assert (Hnd : NoDup (map _id (docs sample_db)))
    by (simpl; constructor; [intros [] | constructor]).
  split; [reflexivity|]. split; [exact Hnd|].
  destruct (update_replaces_fields (js := sample_js)
              (mkRequest sample_id (update_fields 0) []) sample_db sample_oid
              (mkChanges (Some "Updated") None (Some "Hall") (Some 1733961600000)
                 None (Some 0))
              sample_doc eq_refl eq_refl eq_refl Hnd (or_introl eq_refl) eq_refl
              eq_refl) as [Hrun _].
  now rewrite Hrun.
Defined.

Lemma update_can_be_replayed_witness :
  status_of
    (response_of
       (run_new (js := sample_js)
          (app_put_events_id (js := sample_js)
             (mkRequest sample_id (update_fields 0) [])) [] sample_db))
  = Some 200
  /\ run_new (js := sample_js)
       (app_put_events_id (js := sample_js)
          (mkRequest sample_id (update_fields 0) [])) []
       (db_of
          (run_new (js := sample_js)
             (app_put_events_id (js := sample_js)
                (mkRequest sample_id (update_fields 0) [])) [] sample_db))
     = run_new (js := sample_js)
         (app_put_events_id (js := sample_js)
            (mkRequest sample_id (update_fields 0) [])) [] sample_db.
Proof.
  split; [reflexivity|].
  apply (update_can_be_replayed (js := sample_js)
           (mkRequest sample_id (update_fields 0) []) sample_db).
  reflexivity.
Defined.

Lemma delete_removes_one_witness :
  castObjectId sample_id = Some sample_oid
  /\ run_new (js := sample_js) (app_delete_events_id (mkRequest sample_id [] []))
       [] sample_db
     = (Response 200 (Message "Event deleted successfully"),
        mkDb [] (N.succ sample_oid) None,
        [Called (Event_findByIdAndDelete sample_id)]).
Proof.
  split; [reflexivity|].
  rewrite (delete_removes_one (js := sample_js) (mkRequest sample_id [] [])
             sample_db sample_oid sample_doc eq_refl).
  - reflexivity.
  - simpl. constructor; [intros [] | constructor].
  - now left.
  - reflexivity.
Defined.

Lemma create_then_delete_restores_witness :
  ids_below empty_db
  /\ castObjectId "000000000000000000000000" = Some (next_id empty_db)
  /\ exists d,
       serve (js := sample_js)
         [(POST (mkRequest "" create_fields []), []);
          (DELETE (mkRequest "000000000000000000000000" [] []), [])] empty_db
       = ([Response 201 (EventBody (mkFound d (Some 0)));
           Response 200 (Message "Event deleted successfully")],
          mkDb [] 1 None).
Proof.
  assert (H : ids_below empty_db) by (split; [constructor | exact I]).
  split; [exact H|]. split; [reflexivity|].
  destruct (create_then_delete_restores (js := sample_js)
              (mkRequest "" create_fields [])
              (mkRequest "000000000000000000000000" [] []) empty_db
              1733961600000 H eq_refl eq_refl eq_refl) as [d [_ Hrun]].
  exists d. exact Hrun.
Defined.

Lemma create_then_list_finds_witness :
  validate (js := sample_js) eventValidationSchema create_fields false = []
  /\ exists d l,
       fst (serve (js := sample_js)
              [(POST (mkRequest "" create_fields []), []);
               (GET (mkRequest "" [] [("status", VStr (status d))]), [])]
              sample_db)
       = [Response 201 (EventBody (mkFound d (Some 0))); Response 200 (EventList l)]
       /\ In (mkFound d None) l.
Proof.
  split; [reflexivity|].
  destruct (create_then_list_finds (js := sample_js)
              (mkRequest "" create_fields []) sample_db 1733961600000 "" []
              eq_refl eq_refl) as [d [l [Hrun Hin]]].
  exists d, l. split; [now rewrite Hrun | exact Hin].
Defined.

Lemma ids_stay_unique_witness :
  ids_below sample_db
  /\ NoDup (map _id (docs sample_db))
  /\ NoDup
       (map _id
          (docs
             (snd (serve (js := sample_js)
                     [(POST (mkRequest "" create_fields []), []);
                      (POST (mkRequest "" create_fields []), [true])]
                     sample_db)))).
Proof.
  assert (H : ids_below sample_db).
  { split; [|exact I]. constructor; [|constructor].
    unfold sample_db, sample_doc. simpl. apply N.lt_succ_diag_r. }
  assert (Hnd : NoDup (map _id (docs sample_db)))
    by (simpl; constructor; [intros [] | constructor]).
  split; [exact H|]. split; [exact Hnd|].
  exact (ids_stay_unique (js := sample_js) _ sample_db H Hnd).
Defined.

Lemma stored_events_stay_well_formed_witness :
  Forall well_formed (docs sample_db)
  /\ Forall well_formed
       (docs
          (snd (serve (js := sample_js)
                  [(PUT (mkRequest sample_id (update_fields 0) []), []);
                   (POST (mkRequest "" create_fields []), [])]
                  sample_db))).
Proof.
  assert (H : Forall well_formed (docs sample_db)).
  { constructor; [|constructor]. unfold well_formed. simpl.
    repeat split; try discriminate. }
  split; [exact H|].
  exact (stored_events_stay_well_formed (js := sample_js) _ sample_db H).
Defined.

Lemma try_routes_roll_back_witness :
  transaction sample_db = None
  /\ response_of
       (run_try (js := sample_js)
          (try_app (js := sample_js) (PUT (mkRequest sample_id create_fields [])))
          [false; false; true] sample_db)
     = Response 500 (Message "Error updating event")
  /\ docs
       (db_of
          (run_try (js := sample_js)
             (try_app (js := sample_js)
                (PUT (mkRequest sample_id create_fields [])))
             [false; false; true] sample_db))
     = [sample_doc]
  /\ response_of
       (run_try (js := sample_js)
          (try_app (js := sample_js) (PUT (mkRequest sample_id create_fields [])))
          [false; false; false; true] sample_db)
     = NoResponse.
Proof.
  split; [reflexivity|]. split; [reflexivity|]. split.
  - apply (proj1 (proj2 (try_routes_roll_back (js := sample_js)
                           (PUT (mkRequest sample_id create_fields []))
                           [false; false; true] sample_db eq_refl))
             500 (Message "Error updating event")); reflexivity.
  - apply (proj2 (proj2 (try_routes_roll_back (js := sample_js)
                           (PUT (mkRequest sample_id create_fields []))
                           [false; false; false; true] sample_db eq_refl)));
      reflexivity.
Defined.

Lemma try_session_failure_unanswered_witness :
  try_middleware_of (js := sample_js) (DELETE (mkRequest sample_id [] [])) = None
  /\ run_try (js := sample_js)
       (try_app (js := sample_js) (DELETE (mkRequest sample_id [] []))) [true]
       sample_db
     = (NoResponse, sample_db, [Called startSession]).
Proof.
  split; [reflexivity|].
  apply (try_session_failure_unanswered (js := sample_js)
           (DELETE (mkRequest sample_id [] [])) [true] sample_db).
  - reflexivity.
  - intros req H. discriminate H.
  - reflexivity.
Defined.

Lemma try_create_delete_agree_witness :
  transaction sample_db = None
  /\ response_of
       (run_try (js := sample_js)
          (try_app (js := sample_js) (DELETE (mkRequest sample_id [] []))) []
          sample_db)
     = Response 200 (Message "Event deleted successfully")
  /\ db_of
       (run_try (js := sample_js)
          (try_app (js := sample_js) (DELETE (mkRequest sample_id [] []))) []
          sample_db)
     = db_of
         (run_new (js := sample_js)
            (app (js := sample_js) (DELETE (mkRequest sample_id [] []))) []
            sample_db).
Proof.
  split; [reflexivity|]. split; [reflexivity|].
  apply (try_create_delete_agree (js := sample_js)
           (DELETE (mkRequest sample_id [] [])) sample_db eq_refl).
  - intros req H. discriminate H.
  - intros req H. discriminate H.
Defined.

Lemma description_bound_witness :
  get "description" (("description", VStr "A talk") :: create_fields)
  = Some (VStr "A talk")
  /\ ~ In "Description cannot exceed 500 characters"
        (map d_message
           (validate (js := sample_js) eventValidationSchema
              (("description", VStr "A talk") :: create_fields) false)).
Proof.
  split; [reflexivity|].
  intros Hin.
  apply (proj1 (description_bound (js := sample_js)
                  (("description", VStr "A talk") :: create_fields) "A talk"
                  eq_refl)) in Hin.
  simpl in Hin. lia.
Defined.

(** C7, as stated, fails at a payload the create schema accepts whose date
    Mongoose cannot cast: the date ["13"], a timestamp for [Joi.date()] and
    an Invalid Date for the Date constructor Mongoose calls.  The save
    rejects and the answer is 500, not 201. *)
Lemma valid_payload_not_always_201 :
  validate (js := literal_js) eventValidationSchema
    [("title", VStr "Event 1"); ("location", VStr "Hall"); ("date", VStr "13")]
    false = []
  /\ run_new (js := literal_js)
       (app_post_events (js := literal_js)
          (mkRequest ""
             [("title", VStr "Event 1"); ("location", VStr "Hall");
              ("date", VStr "13")] []))
       [] empty_db
     = (Response 500 (Message "Error saving event"), mkDb [] 1 None,
        [Called
           (Event_save
              [("title", VStr "Event 1"); ("location", VStr "Hall");
               ("date", VStr "13")])]).
Proof. split; vm_compute; reflexivity. Qed.
